(** * Screenshot-to-Discord bot: a shallow embedding of [main.py] and [updated.py]

    The development follows the class [ApplicationScreenshotter]:
    message formatting ([format_message]), window discovery
    ([find_application_window] and its three platform back ends), capture
    ([take_screenshot], [_screenshot_windows], ...), delivery
    ([send_to_discord], [cleanup_screenshot], [take_single_screenshot]) and
    the monitoring loop ([start_monitoring], [_monitoring_loop],
    [stop_monitoring]).

    Conventions.
    - A Python [str] is a Rocq [string]; one [ascii] stands for one code
      point below 256.  The check mark and the cross of the status
      messages are spelled by their UTF-8 bytes; the program only ever
      concatenates those messages.
    - A Python [int] is a [Z].
    - A call that may raise returns a [result]; [try ... except] is a
      [match] on it.  Only subclasses of [Exception] are modelled.
    - The machine a run meets (platform, windows, processes, clock, HTTP
      end point, which library calls raise) is a record [OS]; what a
      run changes (the files, the clock readings taken, the calls made)
      is a record [World], threaded through the program explicitly.
    - [time.sleep] and [print] are left out. *)

From Stdlib Require Import ZArith String Ascii List Bool Lia.
From Stdlib Require Import DecimalString.
From stdpp Require Import gmap strings.
From stdpp Require Import sorting.
Import ListNotations.

Open Scope string_scope.

(** ** Text: the [str] methods the program calls *)

Module Text.

Definition is_empty (s : string) : bool :=
  match s with EmptyString => true | String _ _ => false end.

(** [str.isspace] on one code point below 256. *)
Definition isspace (c : ascii) : bool :=
  let n := N_of_ascii c in
  ((9 <=? n) && (n <=? 13) || (28 <=? n) && (n <=? 32) || (n =? 133) || (n =? 160))%N.

(** [str.lower] on one code point below 256: A-Z and the Latin-1 capitals
    (all of 192..222 but the multiplication sign 215) move up by 32. *)
Definition lower_char (c : ascii) : ascii :=
  let n := N_of_ascii c in
  if ((65 <=? n) && (n <=? 90) || (192 <=? n) && (n <=? 222) && negb (n =? 215))%N
  then ascii_of_N (n + 32) else c.

Fixpoint lower (s : string) : string :=
  match s with
  | EmptyString => EmptyString
  | String c r => String (lower_char c) (lower r)
  end.

Fixpoint lstrip (s : string) : string :=
  match s with
  | EmptyString => EmptyString
  | String c r => if isspace c then lstrip r else s
  end.

Fixpoint rstrip (s : string) : string :=
  match s with
  | EmptyString => EmptyString
  | String c r =>
      let r' := rstrip r in
      if is_empty r' && isspace c then EmptyString else String c r'
  end.

(** [s.strip()] *)
Definition strip (s : string) : string := rstrip (lstrip s).

(** [sub in s] *)
Fixpoint contains (s sub : string) : bool :=
  String.prefix sub s
  || match s with
     | EmptyString => false
     | String _ r => contains r sub
     end.

(** [s.replace(old, new)] for a non-empty [old]: occurrences are replaced
    from the left and do not overlap.  [skip] counts the characters of a
    match that are still to be dropped. *)
Fixpoint replace_from (old new s : string) (skip : nat) : string :=
  match s with
  | EmptyString => EmptyString
  | String c r =>
      match skip with
      | S k => replace_from old new r k
      | O =>
          if String.prefix old s
          then new +:+ replace_from old new r (String.length old - 1)
          else String c (replace_from old new r 0)
      end
  end.

Definition replace (old new s : string) : string := replace_from old new s 0.

(** [s.split('\n')[0]] *)
Fixpoint first_line (s : string) : string :=
  match s with
  | EmptyString => EmptyString
  | String c r => if (N_of_ascii c =? 10)%N then EmptyString else String c (first_line r)
  end.

(** [s[:n]] for [n >= 0] *)
Fixpoint take (n : nat) (s : string) : string :=
  match n, s with
  | S k, String c r => String c (take k r)
  | _, _ => EmptyString
  end.

(** [str(n)] for an [int] *)
Definition dec (n : Z) : string := NilZero.string_of_int (Z.to_int n).

Fixpoint zeros (n : nat) : string :=
  match n with O => EmptyString | S k => String "0" (zeros k) end.

(** A non-negative number in at least [width] digits, as ["%02d"] prints it. *)
Definition zero_pad (width : nat) (n : Z) : string :=
  let d := dec n in zeros (width - String.length d) +:+ d.

Definition is_digit (c : ascii) : bool :=
  let n := N_of_ascii c in ((48 <=? n) && (n <=? 57))%N.

Definition digit_value (c : ascii) : Z := Z.of_N (N_of_ascii c) - 48.

Fixpoint all_digits (s : string) : bool :=
  match s with
  | EmptyString => true
  | String c r => is_digit c && all_digits r
  end.

(** The value of a string of decimal digits, read from the left. *)
Fixpoint digits_value (acc : Z) (s : string) : Z :=
  match s with
  | EmptyString => acc
  | String c r => digits_value (10 * acc + digit_value c) r
  end.

Definition hex_digit (n : N) : ascii :=
  if (n <? 10)%N then ascii_of_N (48 + n) else ascii_of_N (87 + n).

(** ["\xhh"] *)
Definition hex_escape (c : ascii) : string :=
  let n := N_of_ascii c in
  String "\" (String "x" (String (hex_digit (n / 16)) (String (hex_digit (n mod 16)) EmptyString))).

Definition squote : ascii := ascii_of_nat 39.
Definition dquote : ascii := ascii_of_nat 34.

Fixpoint has_char (q : ascii) (s : string) : bool :=
  match s with
  | EmptyString => false
  | String c r => Ascii.eqb c q || has_char q r
  end.

(** [str.isprintable] on one code point below 256. *)
Definition isprintable (ascii_only : bool) (c : ascii) : bool :=
  let n := N_of_ascii c in
  ((32 <=? n) && (n <=? 126)
   || negb ascii_only && (161 <=? n) && negb (n =? 173))%N.

Fixpoint repr_body (ascii_only : bool) (q : ascii) (s : string) : string :=
  match s with
  | EmptyString => EmptyString
  | String c r =>
      let n := N_of_ascii c in
      (if Ascii.eqb c q || (n =? 92)%N then String "\" (String c EmptyString)
       else if (n =? 9)%N then "\t"
       else if (n =? 10)%N then "\n"
       else if (n =? 13)%N then "\r"
       else if isprintable ascii_only c then String c EmptyString
       else hex_escape c)
      +:+ repr_body ascii_only q r
  end.

(** [repr(s)] ([ascii_only = false]) and [ascii(s)] ([ascii_only = true]):
    single quotes unless the text has a single quote and no double quote. *)
Definition quoted (ascii_only : bool) (s : string) : string :=
  let q := if has_char squote s && negb (has_char dquote s) then dquote else squote in
  String q (repr_body ascii_only q s) +:+ String q EmptyString.

Definition repr (s : string) : string := quoted false s.
Definition ascii_repr (s : string) : string := quoted true s.

End Text.

(** ** Exceptions *)

Inductive exn : Type :=
| KeyError (key : string)
| IndexError (msg : string)
| ValueError (msg : string)
| AttributeError (msg : string)
| TypeError (msg : string)
| OSError (msg : string)
| FileNotFoundError (msg : string)
| CalledProcessError (msg : string)
| NoSuchProcess (msg : string)
| AccessDenied (msg : string)
| OtherError (msg : string).

(** [str(e)], what [f"{e}"] prints: a [KeyError] prints the [repr] of its key. *)
Definition exn_str (e : exn) : string :=
  match e with
  | KeyError k => Text.repr k
  | IndexError m | ValueError m | AttributeError m | TypeError m
  | OSError m | FileNotFoundError m | CalledProcessError m
  | NoSuchProcess m | AccessDenied m | OtherError m => m
  end.

Inductive result (A : Type) : Type :=
| Ok (a : A)
| Raise (e : exn).
Arguments Ok {A} a.
Arguments Raise {A} e.

Definition is_ok {A} (r : result A) : bool :=
  match r with Ok _ => true | Raise _ => false end.

(** ** [str.format] with keyword arguments only

    The template is cut into literal text and replacement fields the way
    CPython's markup iterator does it, one character at a time; a
    malformed template yields the segments read so far and the
    [ValueError].  Fields are rendered from the left, so the first error
    met in reading order is the one raised. *)

Module Format.

Inductive segment : Type :=
| Lit (text : string)
| Fld (name : string) (conv : option ascii) (spec : string).

(** Where the scanner stands: in literal text, after a brace of literal
    text, in a field name (inside square brackets or not), after the [!]
    of a conversion, after the conversion character, or in a format
    spec at some nesting depth of braces. *)
Inductive pstate : Type :=
| SLit (acc : string)
| SOpen (acc : string)
| SClose (acc : string)
| SName (name : string) (in_bracket : bool)
| SBang (name : string)
| SConv (name : string) (c : ascii)
| SSpec (name : string) (conv : option ascii) (spec : string) (depth : nat).

Definition snoc (s : string) (c : ascii) : string := s +:+ String c EmptyString.

Definition lit_segment (acc : string) : list segment :=
  if Text.is_empty acc then [] else [Lit acc].

(** One character read in a field name outside square brackets. *)
Definition name_step (name : string) (c : ascii) : list segment * result pstate :=
  if Ascii.eqb c "{" then ([], Raise (ValueError "unexpected '{' in field name"))
  else if Ascii.eqb c "[" then ([], Ok (SName (snoc name c) true))
  else if Ascii.eqb c "}" then ([Fld name None EmptyString], Ok (SLit EmptyString))
  else if Ascii.eqb c ":" then ([], Ok (SSpec name None EmptyString 1))
  else if Ascii.eqb c "!" then ([], Ok (SBang name))
  else ([], Ok (SName (snoc name c) false)).

(** The segments completed by reading [c] in state [st], and the next state. *)
Definition step (st : pstate) (c : ascii) : list segment * result pstate :=
  match st with
  | SLit acc =>
      if Ascii.eqb c "{" then ([], Ok (SOpen acc))
      else if Ascii.eqb c "}" then ([], Ok (SClose acc))
      else ([], Ok (SLit (snoc acc c)))
  | SOpen acc =>
      if Ascii.eqb c "{" then ([], Ok (SLit (snoc acc c)))
      else let '(segs, st') := name_step EmptyString c in ((lit_segment acc ++ segs)%list, st')
  | SClose acc =>
      if Ascii.eqb c "}" then ([], Ok (SLit (snoc acc c)))
      else (lit_segment acc, Raise (ValueError "Single '}' encountered in format string"))
  | SName name true =>
      ([], Ok (SName (snoc name c) (negb (Ascii.eqb c "]"))))
  | SName name false => name_step name c
  | SBang name => ([], Ok (SConv name c))
  | SConv name cv =>
      if Ascii.eqb c "}" then ([Fld name (Some cv) EmptyString], Ok (SLit EmptyString))
      else if Ascii.eqb c ":" then ([], Ok (SSpec name (Some cv) EmptyString 1))
      else ([], Raise (ValueError "expected ':' after conversion specifier"))
  | SSpec name conv spec depth =>
      if Ascii.eqb c "{" then ([], Ok (SSpec name conv (snoc spec c) (S depth)))
      else if Ascii.eqb c "}" then
        match depth with
        | S (S d) => ([], Ok (SSpec name conv (snoc spec c) (S d)))
        | _ => ([Fld name conv spec], Ok (SLit EmptyString))
        end
      else ([], Ok (SSpec name conv (snoc spec c) depth))
  end.

(** The end of the template met in state [st]. *)
Definition finish (st : pstate) : list segment * option exn :=
  match st with
  | SLit acc => (lit_segment acc, None)
  | SOpen acc =>
      (lit_segment acc, Some (ValueError "Single '{' encountered in format string"))
  | SClose acc =>
      (lit_segment acc, Some (ValueError "Single '}' encountered in format string"))
  | SName _ _ => ([], Some (ValueError "expected '}' before end of string"))
  | SBang _ =>
      ([], Some (ValueError "end of string while looking for conversion specifier"))
  | SConv _ _ | SSpec _ _ _ _ => ([], Some (ValueError "unmatched '{' in format spec"))
  end.

Fixpoint scan (s : string) (st : pstate) : list segment * option exn :=
  match s with
  | EmptyString => finish st
  | String c r =>
      match step st c with
      | (segs, Raise e) => (segs, Some e)
      | (segs, Ok st') => let '(more, err) := scan r st' in ((segs ++ more)%list, err)
      end
  end.

Definition parse (template : string) : list segment * option exn :=
  scan template (SLit EmptyString).

(** [field_name_split]: the part of a field name before its first [.] or
    [[], and what follows it. *)
Fixpoint field_name_split (name : string) : string * string :=
  match name with
  | EmptyString => (EmptyString, EmptyString)
  | String c r =>
      if Ascii.eqb c "." || Ascii.eqb c "[" then (EmptyString, name)
      else let '(first, rest) := field_name_split r in (String c first, rest)
  end.

Definition first_name (name : string) : string := fst (field_name_split name).

(** [PY_SSIZE_T_MAX] of a 64-bit build. *)
Definition PY_SSIZE_T_MAX : Z := 2 ^ 63 - 1.

Definition index_error (n : Z) : exn :=
  IndexError ("Replacement index " +:+ Text.dec n
              +:+ " out of range for positional args tuple").

(** [do_conversion] on a [str] value. *)
Definition do_conversion (v : string) (conv : option ascii) : result string :=
  match conv with
  | None => Ok v
  | Some c =>
      if Ascii.eqb c "s" then Ok v
      else if Ascii.eqb c "r" then Ok (Text.repr v)
      else if Ascii.eqb c "a" then Ok (Text.ascii_repr v)
      else if ((32 <? N_of_ascii c) && (N_of_ascii c <? 127))%N
      then Raise (ValueError ("Unknown conversion specifier " +:+ String c EmptyString))
      else Raise (ValueError ("Unknown conversion specifier " +:+ Text.hex_escape c))
  end.

(** A format spec that is a precision alone: a dot and one to nine digits. *)
Definition precision_of (spec : string) : option nat :=
  match spec with
  | String "." ds =>
      if negb (Text.is_empty ds) && Text.all_digits ds && (String.length ds <=? 9)%nat
      then Some (Z.to_nat (Text.digits_value 0 ds)) else None
  | _ => None
  end.

(** What this development leaves to the library: a field that goes on
    with attribute or index access ([rest] is not empty), and a format
    spec other than the empty one or a precision.  The function gets all
    that the library reads there, and may raise any exception. *)
Class StrLib : Type := {
  format_other :
    gmap string string -> string -> string -> option ascii -> string -> result string
}.

Section Render.
Context {lib : StrLib}.

(** [format(v, spec)] for a [str] value *)
Definition format_value (kwargs : gmap string string) (v spec : string) : result string :=
  if Text.is_empty spec then Ok v
  else match precision_of spec with
       | Some n => Ok (Text.take n v)
       | None => format_other kwargs v EmptyString None spec
       end.

(** One replacement field, with no positional arguments: an empty or a
    numeric name indexes the empty tuple, any other name is looked up in
    [kwargs]. *)
Definition render_field (kwargs : gmap string string)
    (name : string) (conv : option ascii) (spec : string) : result string :=
  let '(first, rest) := field_name_split name in
  if Text.is_empty first then Raise (index_error 0)
  else if Text.all_digits first then
    if (PY_SSIZE_T_MAX <? Text.digits_value 0 first)%Z
    then Raise (ValueError "Too many decimal digits in format string")
    else Raise (index_error (Text.digits_value 0 first))
  else
    match kwargs !! first with
    | None => Raise (KeyError first)
    | Some v =>
        if Text.is_empty rest then
          match do_conversion v conv with
          | Ok v' => format_value kwargs v' spec
          | Raise e => Raise e
          end
        else format_other kwargs v rest conv spec
    end.

Fixpoint render (kwargs : gmap string string) (segs : list segment) : result string :=
  match segs with
  | [] => Ok EmptyString
  | Lit text :: more =>
      match render kwargs more with
      | Ok out => Ok (text +:+ out)
      | Raise e => Raise e
      end
  | Fld name conv spec :: more =>
      match render_field kwargs name conv spec with
      | Raise e => Raise e
      | Ok v =>
          match render kwargs more with
          | Ok out => Ok (v +:+ out)
          | Raise e => Raise e
          end
      end
  end.

(** [template.format] applied to the keyword arguments [kwargs] *)
Definition format (template : string) (kwargs : gmap string string) : result string :=
  let '(segs, err) := parse template in
  match render kwargs segs with
  | Raise e => Raise e
  | Ok out => match err with Some e => Raise e | None => Ok out end
  end.

End Render.

(** A library instance for running examples: it is called on nothing
    the examples of this file format. *)
Definition no_lib : StrLib :=
  {| format_other := fun _ _ _ _ _ => Raise (OtherError "outside the modelled fragment") |}.

End Format.

(** ** [datetime] and [strftime] *)

Record datetime : Type := {
  year : Z; month : Z; day : Z; hour : Z; minute : Z; second : Z
}.

Module Strftime.

(** Day of the week of a Gregorian date, 0 for Sunday. *)
Definition month_offset (m : Z) : Z :=
  nth (Z.to_nat (m - 1)) [0; 3; 2; 5; 0; 3; 5; 1; 4; 6; 2; 4]%Z 0%Z.

Definition weekday (dt : datetime) : Z :=
  let y := (if month dt <? 3 then year dt - 1 else year dt)%Z in
  ((y + y / 4 - y / 100 + y / 400 + month_offset (month dt) + day dt) mod 7)%Z.

Definition day_name (dt : datetime) : string :=
  nth (Z.to_nat (weekday dt))
    ["Sunday"; "Monday"; "Tuesday"; "Wednesday"; "Thursday"; "Friday"; "Saturday"]
    EmptyString.

Definition month_name (dt : datetime) : string :=
  nth (Z.to_nat (month dt - 1))
    ["January"; "February"; "March"; "April"; "May"; "June"; "July"; "August";
     "September"; "October"; "November"; "December"]
    EmptyString.

(** The directives the program uses, in the C locale; any other
    character after a percent sign is copied with it. *)
Definition directive (d : ascii) (dt : datetime) : string :=
  if Ascii.eqb d "Y" then Text.zero_pad 4 (year dt)
  else if Ascii.eqb d "m" then Text.zero_pad 2 (month dt)
  else if Ascii.eqb d "d" then Text.zero_pad 2 (day dt)
  else if Ascii.eqb d "H" then Text.zero_pad 2 (hour dt)
  else if Ascii.eqb d "M" then Text.zero_pad 2 (minute dt)
  else if Ascii.eqb d "S" then Text.zero_pad 2 (second dt)
  else if Ascii.eqb d "A" then day_name dt
  else if Ascii.eqb d "B" then month_name dt
  else String "%" (String d EmptyString).

(** [dt.strftime(fmt)]; [pending] says that the character before was a
    percent sign that opens a directive. *)
Fixpoint strftime_from (fmt : string) (pending : bool) (dt : datetime) : string :=
  match fmt with
  | EmptyString => if pending then "%" else EmptyString
  | String c r =>
      if pending then directive c dt +:+ strftime_from r false dt
      else if Ascii.eqb c "%" then strftime_from r true dt
      else String c (strftime_from r false dt)
  end.

Definition strftime (fmt : string) (dt : datetime) : string := strftime_from fmt false dt.

End Strftime.

(** ** The bot

    [ApplicationScreenshotter.__init__]: the configuration, the [running]
    flag and the handle of the monitoring thread (threads are numbered in
    the order they are started). *)

Record ApplicationScreenshotter : Type := {
  webhook_url : string;
  app_name : string;
  interval : Z;
  delete_after_send : bool;
  custom_message : string;
  running : bool;
  monitor_thread : option nat
}.

Definition init : ApplicationScreenshotter :=
  {| webhook_url := EmptyString;
     app_name := EmptyString;
     interval := 60;
     delete_after_send := true;
     custom_message := "Screenshot of {app_name} - {timestamp}";
     running := false;
     monitor_thread := None |}.

(** The placeholders of a message template. *)
Definition recognized : list string :=
  ["app_name"; "timestamp"; "date"; "time"; "day"; "month"; "year"].

Section FormatMessage.
Context {lib : Format.StrLib}.

(** The dictionary [variables] of [format_message].  The method reads the
    clock once per entry: [now k] is the reading of its [k]-th call of
    [datetime.now()]. *)
Definition variables (self : ApplicationScreenshotter) (now : nat -> datetime)
  : gmap string string :=
  list_to_map
    [("app_name", app_name self);
     ("timestamp", Strftime.strftime "%Y-%m-%d %H:%M:%S" (now 0%nat));
     ("date", Strftime.strftime "%Y-%m-%d" (now 1%nat));
     ("time", Strftime.strftime "%H:%M:%S" (now 2%nat));
     ("day", Strftime.strftime "%A" (now 3%nat));
     ("month", Strftime.strftime "%B" (now 4%nat));
     ("year", Strftime.strftime "%Y" (now 5%nat))].

(** The two [except] clauses of [format_message]. *)
Definition error_text (e : exn) : string :=
  match e with
  | KeyError _ => "Error in message format: Unknown variable " +:+ exn_str e
  | _ => "Error formatting message: " +:+ exn_str e
  end.

Definition format_message (self : ApplicationScreenshotter) (now : nat -> datetime)
  : string :=
  match Format.format (custom_message self) (variables self now) with
  | Ok message => message
  | Raise e => error_text e
  end.

End FormatMessage.

(** ** The operating system *)

Inductive Platform : Type := Win32 | Darwin | Linux.

Definition rect : Type := (Z * Z * Z * Z)%type.

(** A window as [pygetwindow] shows it (and as the class [WindowObj] of
    the process pass rebuilds it). *)
Record Window : Type := {
  title : string;
  visible : bool;
  left : Z;
  top : Z;
  width : Z;
  height : Z;
  isMinimized : bool
}.

(** A process as [psutil.process_iter(['name', 'pid'])] shows it; the
    name is [None] when it could not be read. *)
Record Process : Type := { proc_name : option string; pid : Z }.

(** A top-level window as [EnumWindows] passes it to its callback. *)
Record Hwnd : Type := {
  hwnd_pid : Z;
  hwnd_title : string;
  hwnd_visible : bool;
  hwnd_rect : rect;
  hwnd_iconic : bool
}.

(** A running application of [NSWorkspace]. *)
Record App : Type := { localizedName : option string }.

(** An entry of [CGWindowListCopyWindowInfo]: the owner's name ([''] when
    absent) and the bounds X, Y, Width, Height ([None] when absent or empty). *)
Record QWindow : Type := { owner : string; bounds : option rect }.

(** What [find_application_window] returns besides [None]. *)
Inductive handle : Type :=
| HWindow (w : Window)
| HApp (a : App)
| HId (window_id : string).

(** The calls into the operating system and the libraries. *)
Inductive call : Type :=
| GetAllWindows
| ProcessIter
| EnumWindows (pid : Z)
| RunningApplications
| Run (argv : list string)
| Makedirs (path : string)
| DirectCapture (title : string)
| Restore
| Activate
| ActivateApp
| WindowList
| Screenshot (region : option rect)
| Save (filename : string)
| Open (filename : string)
| Post (url : string) (data : gmap string string) (filename : string)
| Remove (filename : string).

(** The environment of a run: what each call answers, and which calls raise. *)
Record OS : Type := {
  platform : Platform;
  raises : call -> option exn;
  all_windows : list Window;
  processes : list Process;
  top_level : list Hwnd;
  running_apps : list App;
  xdotool_search : string -> Z * string;
  window_list : list QWindow;
  minimized_now : Window -> bool;
  current_rect : Window -> rect;
  direct_blit : string -> bool;
  tool_writes : list string -> bool;
  status_code : string -> gmap string string -> Z;
  clock : nat -> datetime
}.

(** What a run changes: the paths that exist, the number of clock
    readings taken, and the calls made so far (latest first). *)
Record World : Type := {
  files : gset string;
  ticks : nat;
  log : list call
}.

(** ** Computations: state and exceptions *)

Definition M (A : Type) : Type := World -> result A * World.

Definition ret {A} (a : A) : M A := fun w => (Ok a, w).

Definition raise {A} (e : exn) : M A := fun w => (Raise e, w).

Definition bind {A B} (m : M A) (k : A -> M B) : M B :=
  fun w =>
    match m w with
    | (Ok a, w') => k a w'
    | (Raise e, w') => (Raise e, w')
    end.

(** [try: m  except Exception as e: h e] *)
Definition try_except {A} (m : M A) (h : exn -> M A) : M A :=
  fun w =>
    match m w with
    | (Ok a, w') => (Ok a, w')
    | (Raise e, w') => h e w'
    end.

Notation "x <- m ;; k" := (bind m (fun x => k))
  (at level 200, m at level 99, k at level 200, right associativity).
Notation "m ;;; k" := (bind m (fun _ => k))
  (at level 200, k at level 200, right associativity).

Definition logged (c : call) (w : World) : World :=
  {| files := files w; ticks := ticks w; log := c :: log w |}.

Definition with_files (fs : gset string) (w : World) : World :=
  {| files := fs; ticks := ticks w; log := log w |}.

Section Primitives.
Variable os : OS.

(** A call is recorded, then raises or returns. *)
Definition invoke (c : call) : M unit :=
  fun w =>
    match raises os c with
    | Some e => (Raise e, logged c w)
    | None => (Ok tt, logged c w)
    end.

(** [datetime.now()] *)
Definition now : M datetime :=
  fun w => (Ok (clock os (ticks w)),
            {| files := files w; ticks := S (ticks w); log := log w |}).

(** [os.path.exists(path)] *)
Definition path_exists (path : string) : M bool :=
  fun w => (Ok (bool_decide (path ∈ files w)), w).

Definition create (path : string) : M unit :=
  fun w => (Ok tt, with_files ({[path]} ∪ files w) w).

(** [os.makedirs(path)] *)
Definition makedirs (path : string) : M unit :=
  invoke (Makedirs path) ;;; create path.

(** [image.save(filename)] *)
Definition save (filename : string) : M unit :=
  invoke (Save filename) ;;; create filename.

(** [os.remove(filename)] *)
Definition remove (filename : string) : M unit :=
  invoke (Remove filename) ;;;
  fun w =>
    if bool_decide (filename ∈ files w)
    then (Ok tt, with_files (files w ∖ {[filename]}) w)
    else (Raise (FileNotFoundError
                   ("[Errno 2] No such file or directory: " +:+ Text.repr filename)), w).

(** [open(filename, 'rb')] *)
Definition open (filename : string) : M unit :=
  invoke (Open filename) ;;;
  fun w =>
    if bool_decide (filename ∈ files w) then (Ok tt, w)
    else (Raise (FileNotFoundError
                   ("[Errno 2] No such file or directory: " +:+ Text.repr filename)), w).

(** [subprocess.run(argv, check=True)] of a tool that writes [output]. *)
Definition run_tool (argv : list string) (output : string) : M unit :=
  invoke (Run argv) ;;;
  if tool_writes os argv then create output else ret tt.

(** [os.path.join(directory, name)] *)
Definition path_join (directory name : string) : string :=
  directory +:+ (match platform os with Win32 => "\" | _ => "/" end) +:+ name.

End Primitives.

(** ** Finding the application window *)

Section Locate.
Variable os : OS.
Variable self : ApplicationScreenshotter.

(** The test of the title pass of [_find_window_windows]. *)
Definition title_matches (window : Window) : bool :=
  negb (Text.is_empty (title window))
  && Text.contains (Text.lower (title window)) (app_name self)
  && visible window
  && (0 <? width window)%Z && (0 <? height window)%Z.

Definition matching_windows (windows : list Window) : list Window :=
  List.filter title_matches windows.

(** The title pass: the first match that is not minimized, else the
    first match; [None] sends the search on to the process pass. *)
Definition title_pass (windows : list Window) : option Window :=
  match matching_windows windows with
  | [] => None
  | first :: _ =>
      match List.find (fun window => negb (isMinimized window)) (matching_windows windows) with
      | Some window => Some window
      | None => Some first
      end
  end.

(** The test of the process pass on a lower-case process name. *)
Definition process_matches (name : string) : bool :=
  Text.contains name (app_name self)
  || String.eqb (Text.replace ".exe" EmptyString name) (app_name self).

(** The class [WindowObj] *)
Definition WindowObj (h : Hwnd) : Window :=
  let '(x0, y0, x1, y1) := hwnd_rect h in
  {| title := hwnd_title h; visible := true;
     left := x0; top := y0; width := x1 - x0; height := y1 - y0;
     isMinimized := hwnd_iconic h |}.

Definition enum_windows_callback (h : Hwnd) (p : Z) : option Window :=
  if (hwnd_pid h =? p)%Z && negb (Text.is_empty (hwnd_title h)) && hwnd_visible h
  then Some (WindowObj h) else None.

(** [EnumWindows] with [callback]: the enumeration stops at the first
    window for which [enum_windows_callback] answers. *)
Fixpoint enum_windows (hs : list Hwnd) (p : Z) : option Window :=
  match hs with
  | [] => None
  | h :: more =>
      match enum_windows_callback h p with
      | Some window => Some window
      | None => enum_windows more p
      end
  end.

(** The body of the loop over processes; [NoSuchProcess] and
    [AccessDenied] move on to the next process. *)
Fixpoint process_pass (procs : list Process) : M (option Window) :=
  match procs with
  | [] => ret None
  | proc :: more =>
      found <-
        try_except
          (match proc_name proc with
           | None => raise (AttributeError "'NoneType' object has no attribute 'lower'")
           | Some name =>
               if process_matches (Text.lower name) then
                 invoke os (EnumWindows (pid proc)) ;;;
                 ret (enum_windows (top_level os) (pid proc))
               else ret None
           end)
          (fun e =>
             match e with
             | NoSuchProcess _ | AccessDenied _ => ret None
             | _ => raise e
             end) ;;
      match found with
      | Some window => ret (Some window)
      | None => process_pass more
      end
  end.

Definition _find_window_windows : M (option handle) :=
  try_except
    (invoke os GetAllWindows ;;;
     match title_pass (all_windows os) with
     | Some window => ret (Some (HWindow window))
     | None =>
         invoke os ProcessIter ;;;
         found <- process_pass (processes os) ;;
         ret (option_map HWindow found)
     end)
    (fun _ => ret None).

(** The loop of [_find_window_macos]. *)
Fixpoint first_app (apps : list App) : M (option App) :=
  match apps with
  | [] => ret None
  | app :: more =>
      match localizedName app with
      | None => raise (AttributeError "'NoneType' object has no attribute 'lower'")
      | Some name =>
          if Text.contains (Text.lower name) (app_name self) then ret (Some app)
          else first_app more
      end
  end.

Definition _find_window_macos : M (option handle) :=
  try_except
    (invoke os RunningApplications ;;;
     found <- first_app (running_apps os) ;;
     ret (option_map HApp found))
    (fun _ => ret None).

Definition _find_window_linux : M (option handle) :=
  try_except
    (invoke os (Run ["xdotool"; "search"; "--name"; app_name self]) ;;;
     let '(returncode, stdout) := xdotool_search os (app_name self) in
     if (returncode =? 0)%Z && negb (Text.is_empty (Text.strip stdout))
     then ret (Some (HId (Text.first_line (Text.strip stdout))))
     else ret None)
    (fun _ => ret None).

Definition find_application_window : M (option handle) :=
  match platform os with
  | Win32 => _find_window_windows
  | Darwin => _find_window_macos
  | Linux => _find_window_linux
  end.

End Locate.

(** ** Capture *)

(** The check mark U+2713, the cross U+2717 and the line feed. *)
Definition check_mark : string :=
  String (ascii_of_nat 226) (String (ascii_of_nat 156) (String (ascii_of_nat 147) EmptyString)).
Definition cross_mark : string :=
  String (ascii_of_nat 226) (String (ascii_of_nat 156) (String (ascii_of_nat 151) EmptyString)).
Definition nl : string := String (ascii_of_nat 10) EmptyString.

Section Capture.
Variable os : OS.

(** The rectangle method 2 of [_screenshot_windows] passes to
    [pyautogui.screenshot]: [None] is the whole screen. *)
Definition capture_region (left top width height : Z) : option rect :=
  if ((width <=? 0) || (height <=? 0))%Z then None
  else
    let margin := 8%Z in
    let left := (left + margin)%Z in
    let top := (top + (margin + 30))%Z in
    let width := (width - margin * 2)%Z in
    let height := (height - (margin * 2 + 30))%Z in
    if ((0 <? width) && (0 <? height))%Z then Some (left, top, width, height)
    else None.

(** Method 2 of [_screenshot_windows], from [if window.isMinimized] to its
    [return].  The attributes of a window are read from the window when
    they are used: [minimized_now] is what [isMinimized] answers here,
    and [current_rect] what [left], [top], [width] and [height] answer
    once the window has been activated. *)
Definition region_capture (window : Window) (filename : string)
  : M (option string * string) :=
  (if minimized_now os window then invoke os Restore else ret tt) ;;;
  invoke os Activate ;;;
  let '(left, top, width, height) := current_rect os window in
  invoke os (Screenshot (capture_region left top width height)) ;;;
  save os filename ;;;
  ret (Some filename, check_mark +:+ " Used screen region capture method").

(** Method 1 of [_screenshot_windows]: the window is looked up by its
    title and copied from its device context.  [direct_blit] says whether
    a handle was found and [BitBlt] gave a result; any exception of the
    block is passed over. *)
Definition direct_capture (window : Window) (filename : string) : M bool :=
  try_except
    (invoke os (DirectCapture (title window)) ;;;
     if direct_blit os (title window) then save os filename ;;; ret true
     else ret false)
    (fun _ => ret false).

Definition _screenshot_windows (window : Window) (filename : string)
  : M (option string * string) :=
  try_except
    (direct <- direct_capture window filename ;;
     if direct then ret (Some filename, check_mark +:+ " Used direct window capture method")
     else region_capture window filename)
    (fun e => ret (None, "Error in Windows screenshot: " +:+ exn_str e)).

(** The loop of method 1 of [_screenshot_macos]; [Some] is a [return]
    from inside the loop. *)
Fixpoint bounds_capture (name : string) (windows : list QWindow) (filename : string)
  : M (option (option string * string)) :=
  match windows with
  | [] => ret None
  | window :: more =>
      if Text.contains (Text.lower (owner window)) name then
        match bounds window with
        | Some (x, y, w, h) =>
            if ((0 <? w) && (0 <? h))%Z then
              invoke os (Screenshot (Some (x, y, w, h))) ;;;
              save os filename ;;;
              ret (Some (Some filename, check_mark +:+ " Used window bounds capture method"))
            else bounds_capture name more filename
        | None => bounds_capture name more filename
        end
      else bounds_capture name more filename
  end.

Definition _screenshot_macos (app : App) (filename : string)
  : M (option string * string) :=
  try_except
    (invoke os ActivateApp ;;;
     early <-
       try_except
         (invoke os WindowList ;;;
          match localizedName app with
          | None => raise (AttributeError "'NoneType' object has no attribute 'lower'")
          | Some name => bounds_capture (Text.lower name) (window_list os) filename
          end)
         (fun _ => ret None) ;;
     match early with
     | Some answer => ret answer
     | None =>
         invoke os (Screenshot None) ;;;
         save os filename ;;;
         ret (Some filename, check_mark +:+ " Used full screen capture method")
     end)
    (fun e => ret (None, "Error in macOS screenshot: " +:+ exn_str e)).

(** [except subprocess.CalledProcessError: pass] *)
Definition pass_called_process_error (e : exn) : M bool :=
  match e with
  | CalledProcessError _ => ret false
  | _ => raise e
  end.

(** [except (subprocess.CalledProcessError, FileNotFoundError): pass] *)
Definition pass_tool_error (e : exn) : M bool :=
  match e with
  | CalledProcessError _ | FileNotFoundError _ => ret false
  | _ => raise e
  end.

Definition _screenshot_linux (window_id filename : string)
  : M (option string * string) :=
  try_except
    (by_import <-
       try_except
         (invoke os (Run ["xdotool"; "windowactivate"; window_id]) ;;;
          run_tool os ["import"; "-window"; window_id; filename] filename ;;;
          path_exists filename)
         pass_called_process_error ;;
     if by_import then ret (Some filename, check_mark +:+ " Used window ID capture method")
     else
       by_scrot <-
         try_except
           (invoke os (Run ["xdotool"; "windowactivate"; window_id]) ;;;
            run_tool os ["scrot"; "-s"; filename] filename ;;;
            path_exists filename)
           pass_tool_error ;;
       if by_scrot then ret (Some filename, check_mark +:+ " Used scrot selection method")
       else
         by_gnome <-
           try_except
             (run_tool os ["gnome-screenshot"; "-w"; "-f"; filename] filename ;;;
              path_exists filename)
             pass_tool_error ;;
         if by_gnome then ret (Some filename, check_mark +:+ " Used gnome-screenshot method")
         else
           invoke os (Screenshot None) ;;;
           save os filename ;;;
           ret (Some filename, check_mark +:+ " Used full screen capture method"))
    (fun e => ret (None, "Error in Linux screenshot: " +:+ exn_str e)).

Definition not_found_message (self : ApplicationScreenshotter) : string :=
  "Application '" +:+ app_name self +:+ "' not found or not running".

(** The platform's capture on the handle its own finder returned; a
    handle of another platform has none of the attributes the capture
    reads. *)
Definition capture (window : handle) (filename : string) : M (option string * string) :=
  match platform os, window with
  | Win32, HWindow w => _screenshot_windows w filename
  | Darwin, HApp a => _screenshot_macos a filename
  | Linux, HId i => _screenshot_linux i filename
  | _, _ => raise (AttributeError "object has no such attribute")
  end.

Definition take_screenshot (self : ApplicationScreenshotter) : M (option string * string) :=
  window <- find_application_window os self ;;
  match window with
  | None => ret (None, not_found_message self)
  | Some window =>
      let screenshots_dir := "screenshots" in
      present <- path_exists screenshots_dir ;;
      (if present then ret tt else makedirs os screenshots_dir) ;;;
      t <- now os ;;
      let timestamp := Strftime.strftime "%Y%m%d_%H%M%S" t in
      let filename :=
        path_join os screenshots_dir
          ("screenshot_" +:+ app_name self +:+ "_" +:+ timestamp +:+ ".png") in
      try_except
        (capture window filename)
        (fun e => ret (None, "Error taking screenshot: " +:+ exn_str e))
  end.

End Capture.

(** ** Delivery *)

Section Delivery.
Context {lib : Format.StrLib}.
Variable os : OS.

(** [self.format_message()] at the current clock: six readings. *)
Definition format_message_now (self : ApplicationScreenshotter) : M string :=
  fun w =>
    (Ok (format_message self (fun k => clock os (ticks w + k)%nat)),
     {| files := files w; ticks := (ticks w + 6)%nat; log := log w |}).

(** The dictionary [data] of [send_to_discord]. *)
Definition post_data (content : option string) : gmap string string :=
  match content with
  | Some message => if Text.is_empty message then ∅ else {[ "content" := message ]}
  | None => ∅
  end.

Definition send_to_discord (self : ApplicationScreenshotter) (filename : string)
  : M (bool * string) :=
  try_except
    (open os filename ;;;
     content <-
       (if negb (Text.is_empty (Text.strip (custom_message self)))
        then message <- format_message_now self ;; ret (Some message)
        else ret None) ;;
     let data := post_data content in
     invoke os (Post (webhook_url self) data filename) ;;;
     let code := status_code os (webhook_url self) data in
     if (code =? 200)%Z then ret (true, check_mark +:+ " Screenshot sent successfully")
     else ret (false, cross_mark +:+ " Failed to send screenshot. Status code: "
                      +:+ Text.dec code))
    (fun e => ret (false, cross_mark +:+ " Error sending to Discord: " +:+ exn_str e)).

Definition cleanup_screenshot (self : ApplicationScreenshotter) (filename : string)
  : M (bool * string) :=
  if delete_after_send self then
    try_except
      (remove os filename ;;;
       ret (true, check_mark +:+ " Deleted screenshot: " +:+ filename))
      (fun e => ret (false, cross_mark +:+ " Error deleting file " +:+ filename
                            +:+ ": " +:+ exn_str e))
  else ret (true, "Screenshot kept").

Definition config_message : string :=
  "Please configure webhook URL and application name first!".

(** [filename and os.path.exists(filename)] *)
Definition captured (filename : option string) : M bool :=
  match filename with
  | None => ret false
  | Some f => if Text.is_empty f then ret false else path_exists f
  end.

Definition take_single_screenshot (self : ApplicationScreenshotter) : M (bool * string) :=
  if Text.is_empty (webhook_url self) || Text.is_empty (app_name self)
  then ret (false, config_message)
  else
    shot <- take_screenshot os self ;;
    let '(filename, message) := shot in
    ready <- captured filename ;;
    match filename, ready with
    | Some f, true =>
        sent <- send_to_discord self f ;;
        let '(success, send_message) := sent in
        if success then
          cleaned <- cleanup_screenshot self f ;;
          let '(_, cleanup_message) := cleaned in
          ret (true, message +:+ nl +:+ send_message +:+ nl +:+ cleanup_message)
        else
          ret (false, message +:+ nl +:+ send_message +:+ nl
                      +:+ "Screenshot kept due to send failure")
    | _, _ => ret (false, "Failed to take screenshot: " +:+ message)
    end.

End Delivery.

(** ** Monitoring

    The bot, the world and the threads started so far.  A thread of
    [_monitoring_loop] is at the test of its [while], about to take a
    screenshot, in its [for] loop with some rounds left, or finished. *)

Inductive worker : Type :=
| Testing
| Capturing
| Sleeping (rounds : nat)
| Finished.

Definition is_active (w : worker) : bool :=
  match w with Finished => false | _ => true end.

Record System : Type := {
  self : ApplicationScreenshotter;
  world : World;
  threads : list worker
}.

Definition set_running (b : bool) (s : ApplicationScreenshotter)
  : ApplicationScreenshotter :=
  {| webhook_url := webhook_url s; app_name := app_name s; interval := interval s;
     delete_after_send := delete_after_send s; custom_message := custom_message s;
     running := b; monitor_thread := monitor_thread s |}.

Definition set_monitor_thread (t : nat) (s : ApplicationScreenshotter)
  : ApplicationScreenshotter :=
  {| webhook_url := webhook_url s; app_name := app_name s; interval := interval s;
     delete_after_send := delete_after_send s; custom_message := custom_message s;
     running := running s; monitor_thread := Some t |}.

Definition set_thread (i : nat) (w : worker) (sys : System) : System :=
  {| self := self sys; world := world sys; threads := <[i := w]> (threads sys) |}.


Section Monitor.
(** [take_single_screenshot] of the file at hand. *)
Variable cycle : ApplicationScreenshotter -> M (bool * string).

(** [_monitoring_loop] in thread [i], advanced by one step: the test of
    the [while], one [take_single_screenshot], or one round of the [for]
    loop.  An exception that leaves [take_single_screenshot] ends the
    thread. *)
Definition _monitoring_loop (sys : System) (i : nat) : System :=
  match threads sys !! i with
  | None | Some Finished => sys
  | Some Testing =>
      set_thread i (if running (self sys) then Capturing else Finished) sys
  | Some Capturing =>
      let '(outcome, w) := cycle (self sys) (world sys) in
      {| self := self sys; world := w;
         threads := <[i := match outcome with
                           | Ok _ => Sleeping (Z.to_nat (interval (self sys)))
                           | Raise _ => Finished
                           end]> (threads sys) |}
  | Some (Sleeping O) => set_thread i Testing sys
  | Some (Sleeping (S rounds)) =>
      set_thread i (if running (self sys) then Sleeping rounds else Testing) sys
  end.

Definition run_threads (schedule : list nat) (sys : System) : System :=
  fold_left _monitoring_loop schedule sys.

Definition start_monitoring (sys : System) : (bool * string) * System :=
  let s := self sys in
  if Text.is_empty (webhook_url s) || Text.is_empty (app_name s)
  then ((false, config_message), sys)
  else if running s then ((false, "Monitoring is already running!"), sys)
  else
    ((true, "Started monitoring '" +:+ app_name s +:+ "' every "
            +:+ Text.dec (interval s) +:+ " seconds"),
     {| self := set_monitor_thread (length (threads sys)) (set_running true s);
        world := world sys;
        threads := threads sys ++ [Testing] |}).

(** [stop_monitoring]; [during_join] lists the thread steps taken while
    [join(timeout=2)] waits: the join returns when the thread has finished
    or when the two seconds are over, whichever comes first. *)
Definition stop_monitoring (sys : System) (during_join : list nat)
  : (bool * string) * System :=
  let s := self sys in
  if negb (running s) then ((false, "Monitoring is not running!"), sys)
  else
    let stopped :=
      {| self := set_running false s; world := world sys; threads := threads sys |} in
    ((true, "Stopped monitoring"),
     match monitor_thread s with
     | Some _ => run_threads during_join stopped
     | None => stopped
     end).




(** The thread [stop_monitoring] joined has finished when it returns. *)
Definition joined (sys : System) : bool :=
  match monitor_thread (self sys) with
  | Some t => match threads sys !! t with
              | Some w => negb (is_active w)
              | None => true
              end
  | None => true
  end.


End Monitor.

(** A bot that has not been started, on a world with no thread. *)
Definition boot (s : ApplicationScreenshotter) (w : World) : System :=
  {| self := set_running false s; world := w; threads := [] |}.

(** ** [updated.py]

    The earlier file has no message template: [send_to_discord] always
    posts the text "Screenshot of <app> - <timestamp>".  Its
    [take_single_screenshot], [start_monitoring] and [stop_monitoring]
    read as in [main.py]. *)

Module Updated.
Section Delivery.
Variable os : OS.

Definition send_to_discord (self : ApplicationScreenshotter) (filename : string)
  : M (bool * string) :=
  try_except
    (open os filename ;;;
     t <- now os ;;
     let data : gmap string string :=
       {[ "content" := "Screenshot of " +:+ app_name self +:+ " - "
                       +:+ Strftime.strftime "%Y-%m-%d %H:%M:%S" t ]} in
     invoke os (Post (webhook_url self) data filename) ;;;
     let code := status_code os (webhook_url self) data in
     if (code =? 200)%Z then ret (true, check_mark +:+ " Screenshot sent successfully")
     else ret (false, cross_mark +:+ " Failed to send screenshot. Status code: "
                      +:+ Text.dec code))
    (fun e => ret (false, cross_mark +:+ " Error sending to Discord: " +:+ exn_str e)).

Definition take_single_screenshot (self : ApplicationScreenshotter) : M (bool * string) :=
  if Text.is_empty (webhook_url self) || Text.is_empty (app_name self)
  then ret (false, config_message)
  else
    shot <- take_screenshot os self ;;
    let '(filename, message) := shot in
    ready <- captured filename ;;
    match filename, ready with
    | Some f, true =>
        sent <- send_to_discord self f ;;
        let '(success, send_message) := sent in
        if success then
          cleaned <- cleanup_screenshot os self f ;;
          let '(_, cleanup_message) := cleaned in
          ret (true, message +:+ nl +:+ send_message +:+ nl +:+ cleanup_message)
        else
          ret (false, message +:+ nl +:+ send_message +:+ nl
                      +:+ "Screenshot kept due to send failure")
    | _, _ => ret (false, "Failed to take screenshot: " +:+ message)
    end.

End Delivery.
End Updated.

(** * The vocabulary of the properties, and machines for the examples *)

(** The names a template asks for: the first part of each replacement
    field the scanner reads, in reading order. *)
Definition placeholders (template : string) : list string :=
  omap (fun seg =>
          match seg with
          | Format.Fld name _ _ => Some (Format.first_name name)
          | Format.Lit _ => None
          end)
       (fst (Format.parse template)).

(** A field name that is looked up among the keyword arguments: not
    empty and not a number. *)
Definition is_keyword (k : string) : bool :=
  negb (Text.is_empty k) && negb (Text.all_digits k).

(** Monday 2024-01-15, 14:30:25. *)
Definition monday_afternoon : datetime :=
  {| year := 2024; month := 1; day := 15; hour := 14; minute := 30; second := 25 |}.

(** A configured bot that watches Notepad and deletes what it has sent. *)
Definition notepad : ApplicationScreenshotter :=
  {| webhook_url := "https://discord.example/api/webhooks/1/token";
     app_name := "notepad";
     interval := 60;
     delete_after_send := true;
     custom_message := "Screenshot of {app_name} - {timestamp}";
     running := false;
     monitor_thread := None |}.

(** The bot [s] with another message template. *)
Definition with_message (template : string) (s : ApplicationScreenshotter)
  : ApplicationScreenshotter :=
  {| webhook_url := webhook_url s; app_name := app_name s; interval := interval s;
     delete_after_send := delete_after_send s; custom_message := template;
     running := running s; monitor_thread := monitor_thread s |}.

(** A machine on which nothing raises, with the given windows, whose
    web hook answers [code]. *)
Definition machine (p : Platform) (windows : list Window) (code : Z) : OS :=
  {| platform := p;
     raises := fun _ => None;
     all_windows := windows;
     processes := [];
     top_level := [];
     running_apps := [];
     xdotool_search := fun _ => (1%Z, EmptyString);
     window_list := [];
     minimized_now := isMinimized;
     current_rect := fun w => (left w, top w, width w, height w);
     direct_blit := fun _ => false;
     tool_writes := fun _ => false;
     status_code := fun _ _ => code;
     clock := fun _ => monday_afternoon |}.

(** The same machine, on which the calls of [failing] raise an [OSError]. *)
Definition failing_on (failing : call -> bool) (os : OS) : OS :=
  {| platform := platform os;
     raises := fun c => if failing c then Some (OSError "[Errno 13] Permission denied")
                        else raises os c;
     all_windows := all_windows os; processes := processes os;
     top_level := top_level os; running_apps := running_apps os;
     xdotool_search := xdotool_search os; window_list := window_list os;
     minimized_now := minimized_now os; current_rect := current_rect os;
     direct_blit := direct_blit os; tool_writes := tool_writes os;
     status_code := status_code os; clock := clock os |}.

(** No file, no clock reading, no call yet. *)
Definition empty_world : World := {| files := ∅; ticks := 0; log := [] |}.

(** The same, with the given paths on disk. *)
Definition world_with (paths : list string) : World :=
  {| files := list_to_set paths; ticks := 0; log := [] |}.

(** A visible Notepad window of 800 by 600 at (100, 100). *)
Definition notepad_window : Window :=
  {| title := "Untitled - Notepad"; visible := true;
     left := 100; top := 100; width := 800; height := 600; isMinimized := false |}.

(** The path of a screenshot of Notepad taken on Windows at [monday_afternoon]. *)
Definition notepad_shot : string := "screenshots\screenshot_notepad_20240115_143025.png".

(** The calls of [os.remove]. *)
Definition is_remove (c : call) : bool :=
  match c with Remove _ => true | _ => false end.

(** The window [w], minimized. *)
Definition minimized (w : Window) : Window :=
  {| title := title w; visible := visible w; left := left w; top := top w;
     width := width w; height := height w; isMinimized := true |}.

(** A window with a matching title that is not visible. *)
Definition hidden_window : Window :=
  {| title := "Notepad helper"; visible := false;
     left := 0; top := 0; width := 10; height := 10; isMinimized := false |}.

(** The cycle of [main.py] on a Linux machine where [xdotool] finds no window. *)
Definition linux_cycle : ApplicationScreenshotter -> M (bool * string) :=
  take_single_screenshot (lib := Format.no_lib) (machine Linux [] 200).

(** Unfolding of the operations on computations. *)
Ltac unfold_m :=
  unfold bind, try_except, ret, raise, invoke, path_exists, create, now, logged,
    with_files in *.

(** Case analysis on the innermost scrutinee of the goal, again and again. *)
Ltac case_matches :=
  repeat match goal with
         | |- context [match ?x with _ => _ end] =>
             lazymatch x with
             | context [match _ with _ => _ end] => fail
             | _ => destruct x eqn:?; simpl
             end
         end.

(** Closes a goal that reads a returned path off an equation between answers. *)
Ltac same_path :=
  case_matches; intros Heq; try discriminate Heq; inversion Heq; subst; reflexivity.

(** Whether [send_to_discord] reports success. *)
Definition send_succeeds {lib : Format.StrLib} (os : OS) (self : ApplicationScreenshotter)
    (filename : string) (w : World) : bool :=
  match fst (send_to_discord os self filename w) with
  | Ok (success, _) => success
  | Raise _ => false
  end.

(** The path [take_screenshot] builds for a reading [t] of the clock. *)
Definition screenshot_path (os : OS) (self : ApplicationScreenshotter) (t : datetime)
  : string :=
  path_join os "screenshots"
    ("screenshot_" +:+ app_name self +:+ "_"
     +:+ Strftime.strftime "%Y%m%d_%H%M%S" t +:+ ".png").

(** Nothing on the machine answers to the application name: no window
    passes the title test and no process passes the name test (Windows),
    no application has the name in its own (macOS), [xdotool] finds no
    window (Linux). *)
Definition nothing_matches (os : OS) (self : ApplicationScreenshotter) : Prop :=
  match platform os with
  | Win32 =>
      matching_windows self (all_windows os) = []
      /\ forall proc name,
           proc ∈ processes os -> proc_name proc = Some name ->
           process_matches self (Text.lower name) = false
  | Darwin =>
      forall app name,
        app ∈ running_apps os -> localizedName app = Some name ->
        Text.contains (Text.lower name) (app_name self) = false
  | Linux =>
      (fst (xdotool_search os (app_name self)) =? 0)%Z
      && negb (Text.is_empty (Text.strip (snd (xdotool_search os (app_name self))))) = false
  end.

(** The calls of the finders: enumerations and the [xdotool] search. *)
Definition is_lookup (c : call) : bool :=
  match c with
  | GetAllWindows | ProcessIter | EnumWindows _ | RunningApplications => true
  | Run argv =>
      match argv with
      | tool :: verb :: _ => String.eqb tool "xdotool" && String.eqb verb "search"
      | _ => false
      end
  | _ => false
  end.

(** From [w] to [w'] only look-ups were made: the files and the clock
    readings are the same, the log grew by look-up calls. *)
Definition lookup_only (w w' : World) : Prop :=
  files w' = files w /\ ticks w' = ticks w
  /\ exists calls, log w' = (calls ++ log w)%list /\ forallb is_lookup calls = true.


(** The kind of handle the capture of platform [p] reads: a window on
    Windows, an application on macOS, and on Linux a window id that is
    not empty and is one line. *)
Definition suits (p : Platform) (h : handle) : bool :=
  match p, h with
  | Win32, HWindow _ => true
  | Darwin, HApp _ => true
  | Linux, HId window_id =>
      negb (Text.is_empty window_id) && negb (Text.has_char (ascii_of_nat 10) window_id)
  | _, _ => false
  end.

(** The same machine with the given processes and top-level windows. *)
Definition with_processes (procs : list Process) (hwnds : list Hwnd) (os : OS) : OS :=
  {| platform := platform os; raises := raises os;
     all_windows := all_windows os; processes := procs;
     top_level := hwnds; running_apps := running_apps os;
     xdotool_search := xdotool_search os; window_list := window_list os;
     minimized_now := minimized_now os; current_rect := current_rect os;
     direct_blit := direct_blit os; tool_writes := tool_writes os;
     status_code := status_code os; clock := clock os |}.

(** The same machine, on which [xdotool search] gives [answer]: a return
    code and the standard output. *)
Definition with_xdotool (answer : Z * string) (os : OS) : OS :=
  {| platform := platform os; raises := raises os;
     all_windows := all_windows os; processes := processes os;
     top_level := top_level os; running_apps := running_apps os;
     xdotool_search := fun _ => answer; window_list := window_list os;
     minimized_now := minimized_now os; current_rect := current_rect os;
     direct_blit := direct_blit os; tool_writes := tool_writes os;
     status_code := status_code os; clock := clock os |}.

(** The bot [s] watching another application. *)
Definition with_app_name (name : string) (s : ApplicationScreenshotter)
  : ApplicationScreenshotter :=
  {| webhook_url := webhook_url s; app_name := name; interval := interval s;
     delete_after_send := delete_after_send s; custom_message := custom_message s;
     running := running s; monitor_thread := monitor_thread s |}.

(** The top-level window of the Notepad process 7. *)
Definition notepad_hwnd : Hwnd :=
  {| hwnd_pid := 7; hwnd_title := "Untitled - Notepad"; hwnd_visible := true;
     hwnd_rect := (100, 100, 900, 700)%Z; hwnd_iconic := false |}.

(** A process the loop of the process pass moves on from: its name is
    read and does not match, or it matches and the enumeration gives no
    window of the process. *)
Definition passed_over (os : OS) (self : ApplicationScreenshotter) (proc : Process) : Prop :=
  exists name,
    proc_name proc = Some name
    /\ (process_matches self (Text.lower name) = false
        \/ (raises os (EnumWindows (pid proc)) = None
            /\ enum_windows (top_level os) (pid proc) = None)).

(** From [w] to [w'] no path outside [paths] was created or removed. *)
Definition touches_only (paths : gset string) (w w' : World) : Prop :=
  forall path, path ∉ paths -> (path ∈ files w' <-> path ∈ files w).

(** A computation that creates and removes no path outside [paths]. *)
Definition keeps (paths : gset string) {A} (m : M A) : Prop :=
  forall w, touches_only paths w (snd (m w)).

(** The end of [take_screenshot]: the clock is read, the file name is
    built and the platform's capture runs under the [except] of the method. *)
Definition shoot (os : OS) (self : ApplicationScreenshotter) (window : handle)
  : M (option string * string) :=
  fun w =>
    try_except
      (capture os window (screenshot_path os self (clock os (ticks w))))
      (fun e => ret (None, "Error taking screenshot: " +:+ exn_str e))
      {| files := files w; ticks := S (ticks w); log := log w |}.

(** What follows [take_screenshot] in [take_single_screenshot], with the
    [send_to_discord] of the file at hand. *)
Definition deliver (os : OS) (self : ApplicationScreenshotter)
    (send : ApplicationScreenshotter -> string -> M (bool * string))
    (shot : option string * string) : M (bool * string) :=
  let '(filename, message) := shot in
  ready <- captured filename ;;
  match filename, ready with
  | Some f, true =>
      sent <- send self f ;;
      let '(success, send_message) := sent in
      if success then
        cleaned <- cleanup_screenshot os self f ;;
        let '(_, cleanup_message) := cleaned in
        ret (true, message +:+ nl +:+ send_message +:+ nl +:+ cleanup_message)
      else
        ret (false, message +:+ nl +:+ send_message +:+ nl
                    +:+ "Screenshot kept due to send failure")
  | _, _ => ret (false, "Failed to take screenshot: " +:+ message)
  end.

(** The calls of [os.makedirs]. *)
Definition is_makedirs (c : call) : bool :=
  match c with Makedirs _ => true | _ => false end.

(** The same machine without the program [tool]: running it raises
    [FileNotFoundError]. *)
Definition missing_tool (tool : string) (os : OS) : OS :=
  {| platform := platform os;
     raises := fun c =>
       match c with
       | Run (program :: _) =>
           if String.eqb program tool
           then Some (FileNotFoundError
                        ("[Errno 2] No such file or directory: " +:+ Text.repr tool))
           else raises os c
       | _ => raises os c
       end;
     all_windows := all_windows os; processes := processes os;
     top_level := top_level os; running_apps := running_apps os;
     xdotool_search := xdotool_search os; window_list := window_list os;
     minimized_now := minimized_now os; current_rect := current_rect os;
     direct_blit := direct_blit os; tool_writes := tool_writes os;
     status_code := status_code os; clock := clock os |}.

(** [except subprocess.CalledProcessError] lets the exception through. *)
Definition is_called_process_error (e : exn) : bool :=
  match e with CalledProcessError _ => true | _ => false end.

(** What method 1 of [_screenshot_linux] passes over: no exception, or
    [CalledProcessError]. *)
Definition passed_by_first (r : option exn) : bool :=
  match r with
  | None | Some (CalledProcessError _) => true
  | _ => false
  end.

(** What its methods 2 and 3 pass over: [FileNotFoundError] as well. *)
Definition passed_by_later (r : option exn) : bool :=
  match r with
  | None | Some (CalledProcessError _) | Some (FileNotFoundError _) => true
  | _ => false
  end.

(** The test of method 1 of [_screenshot_macos] on an entry of the window
    list, for the lower-case name of the application. *)
Definition capturable (name : string) (window : QWindow) : bool :=
  Text.contains (Text.lower (owner window)) name
  && match bounds window with
     | Some (_, _, w, h) => (0 <? w)%Z && (0 <? h)%Z
     | None => false
     end.

(** Closes a goal that reads off an equation between answers that the
    file was written. *)
Ltac written :=
  case_matches; intros Heq; try discriminate Heq; inversion Heq; subst; simpl;
  try (apply elem_of_union_l, elem_of_singleton; reflexivity);
  try (match goal with
       | H : bool_decide _ = true |- _ => apply bool_decide_eq_true in H; exact H
       end).

(** The same machine with the given window list of the window server. *)
Definition with_window_list (windows : list QWindow) (os : OS) : OS :=
  {| platform := platform os; raises := raises os;
     all_windows := all_windows os; processes := processes os;
     top_level := top_level os; running_apps := running_apps os;
     xdotool_search := xdotool_search os; window_list := windows;
     minimized_now := minimized_now os; current_rect := current_rect os;
     direct_blit := direct_blit os; tool_writes := tool_writes os;
     status_code := status_code os; clock := clock os |}.

(** The Dock, two Safari windows that cannot be captured, and one that can. *)
Definition safari_windows : list QWindow :=
  [ {| owner := "Dock"; bounds := Some (0, 820, 1440, 80)%Z |};
    {| owner := "Safari"; bounds := None |};
    {| owner := "Safari"; bounds := Some (0, 0, 0, 0)%Z |};
    {| owner := "Safari"; bounds := Some (10, 30, 1200, 800)%Z |} ].

(** The steps a thread still takes, at most, once [running] is false. *)
Definition steps_to_finish (w : worker) : nat :=
  match w with
  | Finished => 0
  | Testing => 1
  | Sleeping _ => 2
  | Capturing => 3
  end.

(** A thread inside [take_single_screenshot]. *)
Definition is_capturing (w : worker) : bool :=
  match w with Capturing => true | _ => false end.

(** A bot that was started and whose thread entered a capture. *)
Definition capturing_system : System :=
  _monitoring_loop linux_cycle (snd (start_monitoring (boot notepad empty_world))) 0.

(** The same after the capture, and after a [stop_monitoring] whose
    join timed out at once: the thread is in its [for] loop. *)
Definition sleeping_stopped_system : System :=
  snd (stop_monitoring linux_cycle (_monitoring_loop linux_cycle capturing_system 0) []).

(** The cycle of [main.py] on a Windows machine that shows Notepad and
    on which [os.makedirs] is refused. *)
Definition refused_cycle : ApplicationScreenshotter -> M (bool * string) :=
  take_single_screenshot (lib := Format.no_lib)
    (failing_on is_makedirs (machine Win32 [notepad_window] 200)).

(** A text with no brace. *)
Definition brace_free (s : string) : bool :=
  negb (Text.has_char "{" s) && negb (Text.has_char "}" s).

(** A segment that is literal text, or the plain field of a recognized
    placeholder: no conversion, no format spec. *)
Definition plain_segment (seg : Format.segment) : bool :=
  match seg with
  | Format.Lit _ => true
  | Format.Fld name conv spec =>
      bool_decide (name ∈ recognized)
      && match conv with None => true | Some _ => false end
      && Text.is_empty spec
  end.

(** The text a plain segment stands for. *)
Definition substitute (kwargs : gmap string string) (seg : Format.segment) : string :=
  match seg with
  | Format.Lit text => text
  | Format.Fld name _ _ => default EmptyString (kwargs !! name)
  end.

(** The text a list of plain segments stands for. *)
Definition substitute_all (kwargs : gmap string string) (segs : list Format.segment)
  : string :=
  fold_right (fun seg out => substitute kwargs seg +:+ out) EmptyString segs.

(** ** The configuration file

    [load_config], [create_default_config] and [save_config] of
    [main.py].  The file [cfg.json] holds text; what [json.load] makes
    of it is a [document]. *)

(** A JSON value as Python reads it: [None], a [bool], an [int], a
    [str], or something else (a float, a list, an object). *)
Inductive json : Type :=
| JNull
| JBool (b : bool)
| JInt (n : Z)
| JString (s : string)
| JOther.

(** The text of the file: not JSON at all, a JSON value that is not an
    object, or an object, which [json.load] returns as a [dict]. *)
Inductive document : Type :=
| Garbled
| Value (v : json)
| Object (members : gmap string json).

(** The file: its contents ([None] when there is no such file), and what
    opening it for reading and for writing raises. *)
Record Disk : Type := {
  cfg : option document;
  read_error : option exn;
  write_error : option exn
}.

(** The dictionary [config] the two writers build. *)
Definition settings (self : ApplicationScreenshotter) : gmap string json :=
  list_to_map
    [("webhook_url", JString (webhook_url self));
     ("app_name", JString (app_name self));
     ("interval", JInt (interval self));
     ("delete_after_send", JBool (delete_after_send self));
     ("custom_message", JString (custom_message self))].

(** The [try] block of the two writers, whose [except] prints the error:
    the file is opened for writing and the dictionary is dumped into it,
    or the file stays as it is. *)
Definition write_settings (self : ApplicationScreenshotter) (disk : Disk) : Disk :=
  match write_error disk with
  | Some _ => disk
  | None => {| cfg := Some (Object (settings self));
               read_error := read_error disk; write_error := write_error disk |}
  end.

Definition create_default_config (self : ApplicationScreenshotter) (disk : Disk) : Disk :=
  write_settings self disk.

Definition save_config (self : ApplicationScreenshotter) (disk : Disk) : Disk :=
  write_settings self disk.

(** [config.get(key, default)] for a setting the bot keeps as a [str], an
    [int] or a [bool].  The answer is [None] when the file gives the key
    a value of another type: the record of the bot has no place for it. *)
Definition get_str (config : gmap string json) (key default : string) : option string :=
  match config !! key with
  | None => Some default
  | Some (JString s) => Some s
  | Some _ => None
  end.

Definition get_int (config : gmap string json) (key : string) (default : Z) : option Z :=
  match config !! key with
  | None => Some default
  | Some (JInt n) => Some n
  | Some _ => None
  end.

Definition get_bool (config : gmap string json) (key : string) (default : bool)
  : option bool :=
  match config !! key with
  | None => Some default
  | Some (JBool b) => Some b
  | Some _ => None
  end.

(** The [with] block of [load_config] on a file that exists: the file is
    opened, [json.load] reads it, and the five settings are taken from
    the dictionary.  Text that is not JSON raises a [ValueError], a value
    that is no dictionary has no [get]. *)
Definition read_settings (self : ApplicationScreenshotter) (disk : Disk) (doc : document)
  : result (option ApplicationScreenshotter) :=
  match read_error disk with
  | Some e => Raise e
  | None =>
      match doc with
      | Garbled => Raise (ValueError "Expecting value: line 1 column 1 (char 0)")
      | Value _ => Raise (AttributeError "object has no attribute 'get'")
      | Object config =>
          Ok match get_str config "webhook_url" EmptyString,
                   get_str config "app_name" EmptyString,
                   get_int config "interval" 60,
                   get_bool config "delete_after_send" true,
                   get_str config "custom_message" "Screenshot of {app_name} - {timestamp}"
             with
             | Some url, Some app, Some seconds, Some delete, Some message =>
                 Some {| webhook_url := url; app_name := app; interval := seconds;
                         delete_after_send := delete; custom_message := message;
                         running := running self;
                         monitor_thread := monitor_thread self |}
             | _, _, _, _, _ => None
             end
      end
  end.

(** [load_config]: the answer of the method, the bot and the file
    afterwards; [None] when the file holds a value the bot cannot keep. *)
Definition load_config (self : ApplicationScreenshotter) (disk : Disk)
  : option (bool * ApplicationScreenshotter * Disk) :=
  match cfg disk with
  | Some doc =>
      match read_settings self disk doc with
      | Ok (Some loaded) => Some (true, loaded, disk)
      | Ok None => None
      | Raise _ => Some (false, self, create_default_config self disk)
      end
  | None => Some (false, self, create_default_config self disk)
  end.

(** A disk with no configuration file, on which nothing raises. *)
Definition blank_disk : Disk :=
  {| cfg := None; read_error := None; write_error := None |}.


(** ** The list of applications

    [list_running_applications] collects names in a [set] and returns
    them sorted. *)

(** [s.endswith(suffix)] *)
Definition endswith (s suffix : string) : bool :=
  (String.length suffix <=? String.length s)%nat
  && String.eqb (String.substring (String.length s - String.length suffix)
                   (String.length suffix) s) suffix.

(** [s[:-n]] for a positive [n] *)
Definition drop_last (n : nat) (s : string) : string :=
  Text.take (String.length s - n) s.

(** What the loop over the windows adds for one window. *)
Definition listed_title (window : Window) : option string :=
  let name := Text.strip (title window) in
  if Text.is_empty name then None else Some name.

(** What the loop over the processes adds on Windows for one process:
    the name, without a final [.exe]. *)
Definition listed_process (proc : Process) : option string :=
  match proc_name proc with
  | None => None
  | Some name =>
      if Text.is_empty name then None
      else if endswith name ".exe" then Some (drop_last 4 name)
      else Some name
  end.

(** The set [apps] at the end of the branches; on macOS and Linux a
    name that could not be read is added as [None]. *)
Definition collect_applications (os : OS) : M (gset (option string)) :=
  match platform os with
  | Win32 =>
      titles <-
        try_except
          (invoke os GetAllWindows ;;; ret (omap listed_title (all_windows os)))
          (fun _ => ret []) ;;
      invoke os ProcessIter ;;;
      ret (list_to_set (Some <$> titles)
           ∪ list_to_set (Some <$> omap listed_process (processes os)))
  | Darwin =>
      try_except
        (invoke os RunningApplications ;;;
         ret (list_to_set (localizedName <$> running_apps os)))
        (fun _ => ret ∅)
  | Linux =>
      invoke os ProcessIter ;;;
      ret (list_to_set (proc_name <$> processes os))
  end.

(** The test [app and len(app) > 1] of the last line. *)
Definition worth_listing (app : option string) : option string :=
  match app with
  | Some name =>
      if negb (Text.is_empty name) && (1 <? String.length name)%nat then Some name else None
  | None => None
  end.

(** [sorted] on a list of [str]: the order of the code points. *)
Definition sorted (names : list string) : list string := merge_sort String.le names.

Definition list_running_applications (os : OS) : M (list string) :=
  apps <- collect_applications os ;;
  ret (sorted (omap worth_listing (elements apps))).

(** A machine for the examples: three windows, two of them with the
    same title, and four processes, one of them without a name. *)
Definition desktop : OS :=
  with_processes
    [ {| proc_name := Some "notepad.exe"; pid := 7 |};
      {| proc_name := Some "System"; pid := 4 |};
      {| proc_name := Some "a.exe"; pid := 9 |};
      {| proc_name := None; pid := 11 |} ]
    []
    (machine Win32 [notepad_window; minimized notepad_window; hidden_window] 200).

(** ** The front ends

    [update_message_preview] of the window, and [console_menu]. *)

(** [update_message_preview]: the bot afterwards and the text of the
    preview label, for the text [message_var] of the entry.  The method
    puts the text in place of the template, formats, and puts the
    template back. *)
Definition update_message_preview {lib : Format.StrLib}
    (self : ApplicationScreenshotter) (message_var : string) (now : nat -> datetime)
  : ApplicationScreenshotter * string :=
  let old_message := custom_message self in
  let typed := with_message message_var self in
  let preview := format_message typed now in
  let restored := with_message old_message typed in
  let preview :=
    if negb (Text.is_empty preview) && (80 <? String.length preview)%nat
    then Text.take 77 preview +:+ "..." else preview in
  (restored,
   if Text.is_empty preview then "Preview: (no message)" else "Preview: " +:+ preview).

(** The state of [console_menu]: the bot with its threads and the world,
    the configuration file, and whether the loop was left. *)
Record Console : Type := {
  system : System;
  disk : Disk;
  exited : bool
}.

(** What happens at the prompt of the menu: a choice is entered, with
    the answer to the question the choice asks, if any; Ctrl-C is
    pressed; or a thread of the bot takes a step meanwhile.
    [during_join] lists the thread steps taken while a [stop_monitoring]
    of the round waits. *)
Inductive event : Type :=
| Enter (choice answer : string) (during_join : list nat)
| Interrupt (during_join : list nat)
| Scheduled (i : nat).

(** The bot of the system, changed by [f]. *)
Definition configure (f : ApplicationScreenshotter -> ApplicationScreenshotter)
    (c : Console) : Console :=
  {| system := {| self := f (self (system c)); world := world (system c);
                  threads := threads (system c) |};
     disk := disk c; exited := exited c |}.

Definition with_webhook_url (url : string) (s : ApplicationScreenshotter)
  : ApplicationScreenshotter :=
  {| webhook_url := url; app_name := app_name s; interval := interval s;
     delete_after_send := delete_after_send s; custom_message := custom_message s;
     running := running s; monitor_thread := monitor_thread s |}.

Definition with_interval (seconds : Z) (s : ApplicationScreenshotter)
  : ApplicationScreenshotter :=
  {| webhook_url := webhook_url s; app_name := app_name s; interval := seconds;
     delete_after_send := delete_after_send s; custom_message := custom_message s;
     running := running s; monitor_thread := monitor_thread s |}.

Definition with_delete_after_send (delete : bool) (s : ApplicationScreenshotter)
  : ApplicationScreenshotter :=
  {| webhook_url := webhook_url s; app_name := app_name s; interval := interval s;
     delete_after_send := delete; custom_message := custom_message s;
     running := running s; monitor_thread := monitor_thread s |}.

(** A method of the bot run from the menu: its answer is printed, and so
    is an exception that leaves it ([except Exception] of the loop). *)
Definition attempt {A} (m : M A) (c : Console) : Console :=
  {| system := {| self := self (system c); world := snd (m (world (system c)));
                  threads := threads (system c) |};
     disk := disk c; exited := exited c |}.

(** The system of the console, replaced. *)
Definition with_system (sys : System) (c : Console) : Console :=
  {| system := sys; disk := disk c; exited := exited c |}.

(** Choice 11 and Ctrl-C: monitoring is stopped if it runs, the
    configuration is saved and the loop is left. *)
Definition leave {lib : Format.StrLib} (os : OS) (during_join : list nat) (c : Console)
  : Console :=
  let sys :=
    if running (self (system c))
    then snd (stop_monitoring (take_single_screenshot os) (system c) during_join)
    else system c in
  {| system := sys; disk := save_config (self sys) (disk c); exited := true |}.

(** One round of the menu for the lines entered.  [int] is the built-in
    of that name on a [str]: [None] stands for its [ValueError]. *)
Definition choose {lib : Format.StrLib} (int : string -> option Z) (os : OS)
    (choice answer : string) (during_join : list nat) (c : Console) : Console :=
  let choice := Text.strip choice in
  let bot := self (system c) in
  if String.eqb choice "1" then
    let url := Text.strip answer in
    if Text.is_empty url then c else configure (with_webhook_url url) c
  else if String.eqb choice "2" then
    let app := Text.strip answer in
    if Text.is_empty app then c else configure (with_app_name (Text.lower app)) c
  else if String.eqb choice "3" then
    attempt (list_running_applications os) c
  else if String.eqb choice "4" then
    let message := Text.strip answer in
    let c := configure (with_message message) c in
    if Text.is_empty message then c
    else attempt (format_message_now os (self (system c))) c
  else if String.eqb choice "5" then
    match int (Text.strip answer) with
    | Some seconds => if (0 <? seconds)%Z then configure (with_interval seconds) c else c
    | None => c
    end
  else if String.eqb choice "6" then
    configure (with_delete_after_send (negb (delete_after_send bot))) c
  else if String.eqb choice "7" then
    attempt (take_single_screenshot os bot) c
  else if String.eqb choice "8" then
    with_system (snd (start_monitoring (system c))) c
  else if String.eqb choice "9" then
    with_system (snd (stop_monitoring (take_single_screenshot os) (system c) during_join)) c
  else if String.eqb choice "10" then
    {| system := system c; disk := save_config bot (disk c); exited := exited c |}
  else if String.eqb choice "11" then
    leave os during_join c
  else c.

(** The loop of [console_menu]; once it is left nothing happens any more. *)
Definition console_step {lib : Format.StrLib} (int : string -> option Z) (os : OS)
    (c : Console) (e : event) : Console :=
  if exited c then c
  else
    match e with
    | Enter choice answer during_join => choose int os choice answer during_join c
    | Interrupt during_join => leave os during_join c
    | Scheduled i =>
        with_system (_monitoring_loop (take_single_screenshot os) (system c) i) c
    end.

Definition console_menu {lib : Format.StrLib} (int : string -> option Z) (os : OS)
    (w : World) (files : Disk) (events : list event) : Console :=
  fold_left (console_step int os) events
    {| system := {| self := init; world := w; threads := [] |};
       disk := files; exited := false |}.

(** What [console_menu] keeps true of the bot: the interval is positive,
    and the application name is in lower case. *)
Definition well_configured (s : ApplicationScreenshotter) : Prop :=
  (0 < interval s)%Z /\ Text.lower (app_name s) = app_name s.


(** * Properties *)

(** ** Text *)

Lemma is_empty_true s : Text.is_empty s = true <-> s = EmptyString.
Proof. destruct s; simpl; split; congruence. Qed.

Lemma is_empty_false s : Text.is_empty s = false <-> s <> EmptyString.
Proof. destruct s; simpl; split; congruence. Qed.

Lemma lower_empty s : Text.lower s = EmptyString -> s = EmptyString.
Proof. destruct s; simpl; congruence. Qed.

Lemma prefix_of_empty sub : String.prefix sub EmptyString = true -> sub = EmptyString.
Proof. destruct sub; simpl; congruence. Qed.

(** Only the empty text is found in the empty text. *)
Lemma contains_empty sub : Text.contains EmptyString sub = true -> sub = EmptyString.
Proof.
  simpl. rewrite orb_false_r. apply prefix_of_empty.
Qed.

(** ** Formatting *)

Lemma variables_unknown self now k :
  k ∉ recognized -> variables self now !! k = None.
Proof.
  intros Hk. unfold variables. apply not_elem_of_list_to_map_1. exact Hk.
Qed.

Lemma variables_known self now k :
  k ∈ recognized -> is_Some (variables self now !! k).
Proof.
  intros Hk. unfold recognized in Hk.
  repeat (apply elem_of_cons in Hk as [-> | Hk]; [eexists; reflexivity |]).
  inversion Hk.
Qed.

Section FormatTheory.
Context {lib : Format.StrLib}.

Lemma render_field_unknown kw name conv spec :
  kw !! Format.first_name name = None ->
  exists e, Format.render_field kw name conv spec = Raise e.
Proof.
  unfold Format.render_field, Format.first_name.
  destruct (Format.field_name_split name) as [first rest]; simpl.
  intros Hk.
  destruct (Text.is_empty first); [eauto |].
  destruct (Text.all_digits first).
  - destruct (Format.PY_SSIZE_T_MAX <? _)%Z; eauto.
  - rewrite Hk. eauto.
Qed.

Lemma render_field_key_error kw name conv spec :
  kw !! Format.first_name name = None ->
  is_keyword (Format.first_name name) = true ->
  Format.render_field kw name conv spec = Raise (KeyError (Format.first_name name)).
Proof.
  unfold Format.render_field, Format.first_name, is_keyword.
  destruct (Format.field_name_split name) as [first rest]; simpl.
  intros Hk Hw. apply andb_true_iff in Hw as [He Hd].
  apply negb_true_iff in He, Hd. rewrite He, Hd, Hk. reflexivity.
Qed.

(** A field that raises makes the whole rendering raise, whatever stands
    before and after it. *)
Lemma render_raises kw pre name conv spec post :
  (exists e, Format.render_field kw name conv spec = Raise e) ->
  exists e, Format.render kw (pre ++ Format.Fld name conv spec :: post) = Raise e.
Proof.
  intros [e He]. induction pre as [| seg pre IH]; simpl.
  - rewrite He. eauto.
  - destruct IH as [e' IH]. rewrite IH.
    destruct seg as [text | n c s]; [eauto |].
    destruct (Format.render_field kw n c s); eauto.
Qed.

(** The error of the first field that raises is the one that comes out. *)
Lemma render_first_error kw pre name conv spec post e :
  is_ok (Format.render kw pre) = true ->
  Format.render_field kw name conv spec = Raise e ->
  Format.render kw (pre ++ Format.Fld name conv spec :: post) = Raise e.
Proof.
  intros Hpre He. induction pre as [| seg pre IH]; simpl in *.
  - rewrite He. reflexivity.
  - destruct seg as [text | n c s].
    + destruct (Format.render kw pre); [| discriminate].
      rewrite IH; reflexivity.
    + destruct (Format.render_field kw n c s); [| discriminate].
      destruct (Format.render kw pre); [| discriminate].
      rewrite IH; reflexivity.
Qed.

Lemma placeholders_split template k :
  k ∈ placeholders template ->
  exists pre name conv spec post,
    fst (Format.parse template) = (pre ++ Format.Fld name conv spec :: post)%list
    /\ Format.first_name name = k.
Proof.
  unfold placeholders. generalize (fst (Format.parse template)) as segs.
  induction segs as [| seg segs IH]; simpl; intros Hk.
  - inversion Hk.
  - destruct seg as [text | name conv spec]; simpl in Hk.
    + destruct (IH Hk) as (pre & name & conv & spec & post & -> & Hn).
      exists (Format.Lit text :: pre), name, conv, spec, post. split; [reflexivity | exact Hn].
    + apply elem_of_cons in Hk as [-> | Hk].
      * exists [], name, conv, spec, segs. split; reflexivity.
      * destruct (IH Hk) as (pre & name' & conv' & spec' & post & -> & Hn).
        exists (Format.Fld name conv spec :: pre), name', conv', spec', post.
        split; [reflexivity | exact Hn].
Qed.

Lemma error_text_not_empty e : Text.is_empty (error_text e) = false.
Proof. destruct e; reflexivity. Qed.

Lemma format_raises_message self now e :
  Format.format (custom_message self) (variables self now) = Raise e ->
  format_message self now = error_text e.
Proof. unfold format_message. intros ->. reflexivity. Qed.

End FormatTheory.

(** ** The message template *)

(** C8: the template "Screenshot of {app_name} - {timestamp}" with the
    application name "notepad", read at 2024-01-15 14:30:25, renders to
    "Screenshot of notepad - 2024-01-15 14:30:25". *)
Theorem format_message_example {lib : Format.StrLib} self now :
  custom_message self = "Screenshot of {app_name} - {timestamp}" ->
  app_name self = "notepad" ->
  now 0%nat = monday_afternoon ->
  format_message self now = "Screenshot of notepad - 2024-01-15 14:30:25".
Proof.
  intros Hmsg Happ Hnow.
  unfold format_message, variables. rewrite Hmsg, Happ, Hnow.
  vm_compute. reflexivity.
Qed.

Lemma format_message_example_witness :
  format_message (lib := Format.no_lib) notepad (fun _ => monday_afternoon)
  = "Screenshot of notepad - 2024-01-15 14:30:25".
Proof.
  apply (format_message_example (lib := Format.no_lib) notepad (fun _ => monday_afternoon));
    reflexivity.
Defined.

(** C7 (amended): a template that asks for a name outside the recognized
    set makes [str.format] raise, and [format_message] returns the text
    of one of its two [except] clauses instead of raising: a text that
    is not empty, so it is posted as the content.  The text names the
    unknown variable when the lookup of that name is the first error met
    in reading order. *)
Theorem format_message_unknown_placeholder {lib : Format.StrLib} self now k :
  k ∈ placeholders (custom_message self) ->
  k ∉ recognized ->
  (exists e,
      Format.format (custom_message self) (variables self now) = Raise e
      /\ format_message self now = error_text e)
  /\ post_data (Some (format_message self now))
     = {[ "content" := format_message self now ]}
  /\ (forall pre name conv spec post,
        fst (Format.parse (custom_message self))
        = (pre ++ Format.Fld name conv spec :: post)%list ->
        Format.first_name name = k ->
        is_keyword k = true ->
        is_ok (Format.render (variables self now) pre) = true ->
        format_message self now
        = "Error in message format: Unknown variable " +:+ Text.repr k).
Proof.
  intros Hin Hk.
  assert (Hraise : exists e,
             Format.format (custom_message self) (variables self now) = Raise e).
  { destruct (placeholders_split _ _ Hin) as (pre & name & conv & spec & post & Hp & Hn).
    unfold Format.format.
    destruct (Format.parse (custom_message self)) as [segs err]; simpl in Hp; subst segs.
    destruct (render_raises (variables self now) pre name conv spec post) as [e He].
    { apply render_field_unknown. rewrite Hn. apply variables_unknown, Hk. }
    rewrite He. eauto. }
  destruct Hraise as [e He]. split; [| split].
  - exists e. split; [exact He | apply format_raises_message, He].
  - rewrite (format_raises_message _ _ _ He). unfold post_data.
    rewrite error_text_not_empty. reflexivity.
  - intros pre name conv spec post Hp Hn Hkw Hpre.
    unfold format_message, Format.format.
    destruct (Format.parse (custom_message self)) as [segs err]; simpl in Hp; subst segs.
    rewrite (render_first_error _ pre name conv spec post (KeyError k) Hpre).
    + reflexivity.
    + rewrite <- Hn. apply render_field_key_error; rewrite Hn;
        [apply variables_unknown, Hk | exact Hkw].
Qed.

Lemma format_message_unknown_placeholder_witness :
  format_message (lib := Format.no_lib)
    (with_message "Window {window} of {app_name}" notepad) (fun _ => monday_afternoon)
  = "Error in message format: Unknown variable 'window'".
Proof.
  destruct (format_message_unknown_placeholder (lib := Format.no_lib)
              (with_message "Window {window} of {app_name}" notepad)
              (fun _ => monday_afternoon) "window") as (_ & _ & Hname).
  - apply (bool_decide_unpack _). vm_compute. exact I.
  - apply (bool_decide_unpack _). vm_compute. exact I.
  - apply (Hname [Format.Lit "Window "] "window" None EmptyString
             [Format.Lit " of "; Format.Fld "app_name" None EmptyString]);
      reflexivity.
Defined.

(** C7, as stated, fails: in "{app_name!x} {foo}" the name [foo] is not
    recognized, and the text returned is that of the conversion error of
    the field before it, which does not name [foo]. *)
Lemma format_message_names_another_error :
  bool_decide ("foo" ∈ placeholders "{app_name!x} {foo}") = true
  /\ bool_decide ("foo" ∈ recognized) = false
  /\ format_message (lib := Format.no_lib)
       (with_message "{app_name!x} {foo}" notepad) (fun _ => monday_afternoon)
     = "Error formatting message: Unknown conversion specifier x"
  /\ Text.contains
       (format_message (lib := Format.no_lib)
          (with_message "{app_name!x} {foo}" notepad) (fun _ => monday_afternoon))
       "foo" = false.
Proof. vm_compute. repeat split. Qed.

(** ** Delivery *)

(** What [send_to_discord] answers on a file that opens: the request
    made and the verdict on the status code. *)
Lemma send_to_discord_opened {lib : Format.StrLib} os self filename w :
  raises os (Open filename) = None ->
  filename ∈ files w ->
  let blank := Text.is_empty (Text.strip (custom_message self)) in
  let message := format_message self (fun k => clock os (ticks w + k)%nat) in
  let data := post_data (if blank then None else Some message) in
  let request := Post (webhook_url self) data filename in
  let w' := {| files := files w;
               ticks := if blank then ticks w else (ticks w + 6)%nat;
               log := request :: Open filename :: log w |} in
  send_to_discord os self filename w =
  match raises os request with
  | Some e => (Ok (false, cross_mark +:+ " Error sending to Discord: " +:+ exn_str e), w')
  | None =>
      if (status_code os (webhook_url self) data =? 200)%Z
      then (Ok (true, check_mark +:+ " Screenshot sent successfully"), w')
      else (Ok (false, cross_mark +:+ " Failed to send screenshot. Status code: "
                       +:+ Text.dec (status_code os (webhook_url self) data)), w')
  end.
Proof.
  intros Hopen Hfile. cbv zeta.
  unfold send_to_discord, open, format_message_now. unfold_m. simpl.
  rewrite Hopen. simpl. rewrite (bool_decide_eq_true_2 _ Hfile).
  destruct (Text.is_empty (Text.strip (custom_message self))); simpl.
  - destruct (raises os (Post (webhook_url self) ∅ filename)); simpl; [reflexivity |].
    destruct (status_code os (webhook_url self) ∅ =? 200)%Z; reflexivity.
  - destruct (raises os (Post _ _ filename)); simpl; [reflexivity |].
    destruct (status_code os (webhook_url self) _ =? 200)%Z; reflexivity.
Qed.

(** C5 (amended): on a file that opens, [send_to_discord] posts no
    [content] field when the template is empty or blank; when it is not,
    it posts the formatted message as [content] unless that message is
    the empty text, in which case the post has no [content] either. *)
Theorem send_to_discord_content {lib : Format.StrLib} os self filename w :
  raises os (Open filename) = None ->
  filename ∈ files w ->
  let message := format_message self (fun k => clock os (ticks w + k)%nat) in
  exists data : gmap string string,
    log (snd (send_to_discord os self filename w))
    = Post (webhook_url self) data filename :: Open filename :: log w
    /\ (Text.is_empty (Text.strip (custom_message self)) = true -> data = ∅)
    /\ (Text.is_empty (Text.strip (custom_message self)) = false ->
        data !! "content" = if Text.is_empty message then None else Some message).
Proof.
  intros Hopen Hfile message.
  pose proof (send_to_discord_opened os self filename w Hopen Hfile) as Hsend.
  cbv zeta in Hsend. fold message in Hsend.
  exists (post_data (if Text.is_empty (Text.strip (custom_message self))
                     then None else Some message)).
  split; [| split].
  - rewrite Hsend.
    destruct (raises os (Post _ _ _)); [reflexivity |].
    destruct (_ =? 200)%Z; reflexivity.
  - intros ->. reflexivity.
  - intros ->. unfold post_data.
    destruct (Text.is_empty message); [reflexivity | apply lookup_singleton_eq].
Qed.

Lemma send_to_discord_content_witness :
  exists data : gmap string string,
    log (snd (send_to_discord (lib := Format.no_lib)
                (machine Win32 [] 200) notepad "shot.png" (world_with ["shot.png"])))
    = [Post (webhook_url notepad) data "shot.png"; Open "shot.png"]
    /\ data !! "content" = Some "Screenshot of notepad - 2024-01-15 14:30:25".
Proof.
  destruct (send_to_discord_content (lib := Format.no_lib)
              (machine Win32 [] 200) notepad "shot.png" (world_with ["shot.png"]))
    as (data & Hlog & _ & Hdata).
  - reflexivity.
  - apply (bool_decide_unpack _). vm_compute. exact I.
  - exists data. split; [exact Hlog |].
    rewrite Hdata by reflexivity. vm_compute. reflexivity.
Defined.

(** C5, as stated, fails: the template "{app_name:.0}" is not empty, its
    message is the empty text, and the post carries no [content]. *)
Lemma send_to_discord_empty_message :
  Text.is_empty (Text.strip "{app_name:.0}") = false
  /\ format_message (lib := Format.no_lib)
       (with_message "{app_name:.0}" notepad) (fun _ => monday_afternoon) = EmptyString
  /\ log (snd (send_to_discord (lib := Format.no_lib) (machine Win32 [] 200)
                 (with_message "{app_name:.0}" notepad) "shot.png"
                 (world_with ["shot.png"])))
     = [Post (webhook_url notepad) ∅ "shot.png"; Open "shot.png"].
Proof. vm_compute. repeat split. Qed.

(** [send_to_discord] returns a verdict, never raises, and leaves the
    files alone. *)
Lemma send_to_discord_total {lib : Format.StrLib} os self filename w :
  exists success text w',
    send_to_discord os self filename w = (Ok (success, text), w')
    /\ files w' = files w.
Proof.
  unfold send_to_discord, open, format_message_now. unfold_m. simpl.
  case_matches; eauto.
Qed.

Lemma updated_send_to_discord_total os self filename w :
  exists success text w',
    Updated.send_to_discord os self filename w = (Ok (success, text), w')
    /\ files w' = files w.
Proof.
  unfold Updated.send_to_discord, open. unfold_m. simpl.
  case_matches; eauto.
Qed.

(** [cleanup_screenshot] on a file that exists: it is gone afterwards
    exactly when deletion is asked for and [os.remove] does not raise. *)
Lemma cleanup_screenshot_files os self filename w :
  filename ∈ files w ->
  exists ok text w',
    cleanup_screenshot os self filename w = (Ok (ok, text), w')
    /\ (filename ∉ files w' <->
        delete_after_send self = true /\ raises os (Remove filename) = None).
Proof.
  intros Hfile. unfold cleanup_screenshot, remove. unfold_m.
  destruct (delete_after_send self); simpl.
  - destruct (raises os (Remove filename)) eqn:Hr; simpl.
    + do 3 eexists. split; [reflexivity |]. simpl.
      split; [intros Hn; contradiction | intros [_ Hd]; discriminate].
    + rewrite (bool_decide_eq_true_2 _ Hfile). simpl.
      do 3 eexists. split; [reflexivity |]. simpl.
      split; [intros _; split; reflexivity |].
      intros _ Hin. apply elem_of_difference in Hin as [_ Hn].
      apply Hn, elem_of_singleton. reflexivity.
  - do 3 eexists. split; [reflexivity |].
    split; [intros Hn; contradiction | intros [Hd _]; discriminate].
Qed.

(** C9: with an empty web hook URL or an empty application name,
    [take_single_screenshot] answers failure with the configuration
    message and leaves the world as it was: nothing was looked up,
    captured or sent, no call was made.  This holds in both files. *)
Theorem take_single_screenshot_unconfigured {lib : Format.StrLib} os self w :
  webhook_url self = EmptyString \/ app_name self = EmptyString ->
  take_single_screenshot os self w = (Ok (false, config_message), w)
  /\ Updated.take_single_screenshot os self w = (Ok (false, config_message), w).
Proof.
  intros Hcfg. unfold take_single_screenshot, Updated.take_single_screenshot.
  assert (Hguard : Text.is_empty (webhook_url self) || Text.is_empty (app_name self) = true).
  { destruct Hcfg as [-> | ->]; simpl; [reflexivity | apply orb_true_r]. }
  rewrite Hguard. split; reflexivity.
Qed.

Lemma take_single_screenshot_unconfigured_witness :
  take_single_screenshot (lib := Format.no_lib) (machine Win32 [] 200) init empty_world
  = (Ok (false, config_message), empty_world)
  /\ Updated.take_single_screenshot (machine Win32 [] 200) init empty_world
     = (Ok (false, config_message), empty_world).
Proof.
  apply (take_single_screenshot_unconfigured (lib := Format.no_lib)
           (machine Win32 [] 200) init empty_world).
  left. reflexivity.
Defined.

(** ** Capture *)


Lemma screenshot_windows_path os window filename w f text w' :
  _screenshot_windows os window filename w = (Ok (Some f, text), w') -> f = filename.
Proof.
  unfold _screenshot_windows, direct_capture, region_capture, save. unfold_m. simpl.
  destruct (current_rect os window) as [[[l t] wd] h].
  same_path.
Qed.

Lemma bounds_capture_path os name windows filename w f text w' :
  bounds_capture os name windows filename w = (Ok (Some (Some f, text)), w') ->
  f = filename.
Proof.
  induction windows as [| window more IH]; simpl.
  - unfold_m. discriminate.
  - destruct (Text.contains _ name); [| exact IH].
    destruct (bounds window) as [[[[x y] wd] h] |]; [| exact IH].
    destruct ((0 <? wd) && (0 <? h))%Z; [| exact IH].
    unfold save. unfold_m. simpl. same_path.
Qed.

Lemma screenshot_macos_path os app filename w f text w' :
  _screenshot_macos os app filename w = (Ok (Some f, text), w') -> f = filename.
Proof.
  unfold _screenshot_macos. unfold try_except at 1. unfold bind at 1.
  destruct (invoke os ActivateApp w) as [[[] | e] w1]; simpl.
  - unfold bind at 1. unfold try_except at 1. unfold bind at 1.
    destruct (invoke os WindowList w1) as [[[] | e] w2]; simpl.
    + destruct (localizedName app) as [name |].
      * destruct (bounds_capture os (Text.lower name) (window_list os) filename w2)
          as [[[[[f' |] text'] |] | e] w3] eqn:Hb; simpl.
        -- intros Heq. inversion Heq; subst.
           apply (bounds_capture_path _ _ _ _ _ _ _ _ Hb).
        -- intros Heq. inversion Heq.
        -- unfold save. unfold_m. simpl. same_path.
        -- unfold save. unfold_m. simpl. same_path.
      * unfold save. unfold_m. simpl. same_path.
    + unfold save. unfold_m. simpl. same_path.
  - unfold ret. intros Heq. inversion Heq.
Qed.

Lemma screenshot_linux_path os window_id filename w f text w' :
  _screenshot_linux os window_id filename w = (Ok (Some f, text), w') -> f = filename.
Proof.
  unfold _screenshot_linux, run_tool, save, pass_called_process_error, pass_tool_error.
  unfold_m. simpl. same_path.
Qed.

Lemma capture_path os window filename w f text w' :
  capture os window filename w = (Ok (Some f, text), w') -> f = filename.
Proof.
  unfold capture. destruct (platform os), window;
    try (unfold raise; discriminate).
  - apply screenshot_windows_path.
  - apply screenshot_macos_path.
  - apply screenshot_linux_path.
Qed.

Lemma screenshot_path_not_empty os self t : Text.is_empty (screenshot_path os self t) = false.
Proof. reflexivity. Qed.

Lemma take_screenshot_path os self w f text w' :
  take_screenshot os self w = (Ok (Some f, text), w') ->
  exists t, f = screenshot_path os self t.
Proof.
  unfold take_screenshot. unfold bind at 1.
  destruct (find_application_window os self w) as [[[window |] | e] w1];
    [| unfold ret; discriminate | discriminate].
  unfold bind at 1. unfold path_exists at 1.
  unfold bind at 1.
  destruct ((if bool_decide ("screenshots" ∈ files w1) then ret tt
             else makedirs os "screenshots") w1) as [[[] | e] w2];
    [| discriminate].
  unfold bind at 1. unfold now at 1. unfold try_except.
  match goal with
  | |- context [capture os window ?p ?w] => destruct (capture os window p w)
      as [[[[f' |] text'] | e] w3] eqn:Hc
  end; unfold ret; intros Heq; inversion Heq; subst.
  apply capture_path in Hc. subst. eexists. reflexivity.
Qed.

(** ** Delivery and cleanup *)

(** C1 (amended): for a capture that is delivered, that is a screenshot
    file [take_screenshot] returned and that exists, the file is gone after
    [take_single_screenshot] if and only if [delete_after_send] is true,
    [send_to_discord] reported success and [os.remove] did not raise.
    The answer is success exactly when the send succeeded; on a send
    failure the file is still there and the answer says it was kept, and
    with [delete_after_send] false the answer of a successful send ends
    with "Screenshot kept". *)
Theorem screenshot_deleted_iff {lib : Format.StrLib} os self w f text w1 :
  webhook_url self <> EmptyString ->
  app_name self <> EmptyString ->
  take_screenshot os self w = (Ok (Some f, text), w1) ->
  f ∈ files w1 ->
  exists answer after send_message,
    take_single_screenshot os self w = (Ok (send_succeeds os self f w1, answer), after)
    /\ fst (send_to_discord os self f w1)
       = Ok (send_succeeds os self f w1, send_message)
    /\ (f ∉ files after <->
        delete_after_send self = true
        /\ send_succeeds os self f w1 = true
        /\ raises os (Remove f) = None)
    /\ (send_succeeds os self f w1 = false ->
        f ∈ files after
        /\ answer = text +:+ nl +:+ send_message +:+ nl
                    +:+ "Screenshot kept due to send failure")
    /\ (send_succeeds os self f w1 = true ->
        delete_after_send self = false ->
        answer = text +:+ nl +:+ send_message +:+ nl +:+ "Screenshot kept").
Proof.
  intros Hurl Happ Hshot Hfile.
  assert (Hf : Text.is_empty f = false).
  { destruct (take_screenshot_path _ _ _ _ _ _ Hshot) as [t ->].
    apply screenshot_path_not_empty. }
  unfold take_single_screenshot, send_succeeds.
  apply is_empty_false in Hurl, Happ. rewrite Hurl, Happ. simpl.
  unfold bind at 1. rewrite Hshot.
  unfold bind at 1. unfold captured. rewrite Hf.
  unfold path_exists. rewrite (bool_decide_eq_true_2 _ Hfile).
  unfold bind at 1.
  destruct (send_to_discord_total os self f w1) as (success & stext & w2 & Hsend & Hfiles).
  rewrite Hsend. simpl. destruct success.
  - assert (Hfile2 : f ∈ files w2) by (rewrite Hfiles; exact Hfile).
    destruct (cleanup_screenshot_files os self f w2 Hfile2)
      as (ok & ctext & w3 & Hclean & Hgone).
    unfold bind. rewrite Hclean. unfold ret.
    exists (text +:+ nl +:+ stext +:+ nl +:+ ctext), w3, stext.
    split; [reflexivity |]. split; [reflexivity |]. split; [| split].
    + rewrite Hgone. tauto.
    + discriminate.
    + intros _ Hkeep. unfold cleanup_screenshot in Hclean. rewrite Hkeep in Hclean.
      unfold ret in Hclean. inversion Hclean. reflexivity.
  - unfold ret. exists (text +:+ nl +:+ stext +:+ nl +:+ "Screenshot kept due to send failure"),
      w2, stext.
    split; [reflexivity |]. split; [reflexivity |]. split; [| split].
    + rewrite Hfiles. split; [intros Hn; contradiction | intros (_ & Hd & _); discriminate].
    + intros _. rewrite Hfiles. split; [exact Hfile | reflexivity].
    + discriminate.
Qed.

Lemma screenshot_deleted_iff_witness :
  exists answer after,
    take_single_screenshot (lib := Format.no_lib)
      (machine Win32 [notepad_window] 200) notepad empty_world
    = (Ok (true, answer), after)
    /\ notepad_shot ∉ files after.
Proof.
  destruct (screenshot_deleted_iff (lib := Format.no_lib)
              (machine Win32 [notepad_window] 200) notepad empty_world notepad_shot
              (check_mark +:+ " Used screen region capture method")
              (snd (take_screenshot (machine Win32 [notepad_window] 200)
                      notepad empty_world)))
    as (answer & after & send_message & Hrun & _ & Hgone & _).
  - discriminate.
  - discriminate.
  - vm_compute. reflexivity.
  - apply (bool_decide_unpack _). vm_compute. exact I.
  - exists answer, after. split.
    + rewrite Hrun. f_equal.
    + apply Hgone. repeat split.
Defined.

(** C1, as stated, fails: with [delete_after_send] true and a send that
    succeeded, the file is still there when [os.remove] raises; the
    answer is success, its last line reports the error. *)
Lemma screenshot_kept_when_remove_raises :
  delete_after_send notepad = true
  /\ fst (take_screenshot (failing_on is_remove (machine Win32 [notepad_window] 200))
            notepad empty_world)
     = Ok (Some notepad_shot, check_mark +:+ " Used screen region capture method")
  /\ fst (take_single_screenshot (lib := Format.no_lib)
            (failing_on is_remove (machine Win32 [notepad_window] 200))
            notepad empty_world)
     = Ok (true,
           check_mark +:+ " Used screen region capture method" +:+ nl
           +:+ check_mark +:+ " Screenshot sent successfully" +:+ nl
           +:+ cross_mark +:+ " Error deleting file " +:+ notepad_shot
           +:+ ": [Errno 13] Permission denied")
  /\ bool_decide
       (notepad_shot
        ∈ files (snd (take_single_screenshot (lib := Format.no_lib)
                        (failing_on is_remove (machine Win32 [notepad_window] 200))
                        notepad empty_world))) = true.
Proof. vm_compute. repeat split. Qed.

(** ** Locating *)

Lemma process_pass_none os self procs w :
  (forall proc name,
      proc ∈ procs -> proc_name proc = Some name ->
      process_matches self (Text.lower name) = false) ->
  exists w', process_pass os self procs w = (Ok None, w')
             \/ exists e, process_pass os self procs w = (Raise e, w').
Proof.
  intros Hno. induction procs as [| proc more IH]; simpl.
  - exists w. left. reflexivity.
  - unfold bind at 1. unfold try_except at 1.
    destruct (proc_name proc) as [name |] eqn:Hname.
    + rewrite (Hno proc name (list_elem_of_here _ _) Hname).
      unfold ret at 1. apply IH.
      intros p n Hp. apply Hno. apply list_elem_of_further, Hp.
    + unfold raise at 1. unfold raise at 1. exists w. right. eauto.
Qed.

Lemma first_app_none self apps w :
  (forall app name,
      app ∈ apps -> localizedName app = Some name ->
      Text.contains (Text.lower name) (app_name self) = false) ->
  first_app self apps w = (Ok None, w)
  \/ exists e, first_app self apps w = (Raise e, w).
Proof.
  intros Hno. induction apps as [| app more IH]; simpl.
  - left. reflexivity.
  - destruct (localizedName app) as [name |] eqn:Hname.
    + rewrite (Hno app name (list_elem_of_here _ _) Hname).
      apply IH. intros a n Ha. apply Hno. apply list_elem_of_further, Ha.
    + right. eauto.
Qed.

(** The finders never raise. *)
Lemma find_application_window_total os self w :
  exists found w', find_application_window os self w = (Ok found, w').
Proof.
  unfold find_application_window, _find_window_windows, _find_window_macos,
    _find_window_linux.
  destruct (platform os); unfold try_except;
    match goal with
    | |- context [match ?m w with _ => _ end] => destruct (m w) as [[found | e] w']
    end; unfold ret; eauto.
Qed.

Lemma find_application_window_none os self w :
  nothing_matches os self ->
  exists w', find_application_window os self w = (Ok None, w').
Proof.
  unfold nothing_matches, find_application_window.
  destruct (platform os).
  - intros [Htitle Hproc]. unfold _find_window_windows, title_pass.
    rewrite Htitle. unfold try_except, bind at 1.
    destruct (invoke os GetAllWindows w) as [[[] | e] w1]; [| unfold ret; eauto].
    unfold bind at 1.
    destruct (invoke os ProcessIter w1) as [[[] | e] w2]; [| unfold ret; eauto].
    unfold bind at 1.
    destruct (process_pass_none os self (processes os) w2 Hproc) as [w3 [Hp | [e Hp]]];
      rewrite Hp; unfold ret; eauto.
  - intros Happ. unfold _find_window_macos. unfold try_except, bind at 1.
    destruct (invoke os RunningApplications w) as [[[] | e] w1]; [| unfold ret; eauto].
    unfold bind at 1.
    destruct (first_app_none self (running_apps os) w1 Happ) as [Hp | [e Hp]];
      rewrite Hp; unfold ret; eauto.
  - intros Hx. unfold _find_window_linux. unfold try_except, bind at 1.
    destruct (invoke os _ w) as [[[] | e] w1]; [| unfold ret; eauto].
    destruct (xdotool_search os (app_name self)) as [code out]; simpl in Hx.
    rewrite Hx. unfold ret. eauto.
Qed.

Lemma lookup_only_refl w : lookup_only w w.
Proof. repeat split. exists []. split; reflexivity. Qed.

Lemma lookup_only_trans w1 w2 w3 :
  lookup_only w1 w2 -> lookup_only w2 w3 -> lookup_only w1 w3.
Proof.
  intros (Hf1 & Ht1 & c1 & Hl1 & Hc1) (Hf2 & Ht2 & c2 & Hl2 & Hc2).
  repeat split; [congruence | congruence |].
  exists (c2 ++ c1)%list. split.
  - rewrite Hl2, Hl1. apply app_assoc.
  - rewrite forallb_app, Hc1, Hc2. reflexivity.
Qed.

Lemma invoke_lookup os c w :
  is_lookup c = true -> lookup_only w (snd (invoke os c w)).
Proof.
  intros Hc. unfold invoke. destruct (raises os c); simpl;
    (repeat split; exists [c]; split; [reflexivity | simpl; rewrite Hc; reflexivity]).
Qed.

Lemma process_pass_lookup os self procs w :
  lookup_only w (snd (process_pass os self procs w)).
Proof.
  revert w. induction procs as [| proc more IH]; intros w; simpl.
  - apply lookup_only_refl.
  - unfold bind at 1. unfold try_except at 1.
    destruct (proc_name proc) as [name |].
    + destruct (process_matches self (Text.lower name)).
      * unfold bind at 1.
        pose proof (invoke_lookup os (EnumWindows (pid proc)) w eq_refl) as Hi.
        destruct (invoke os (EnumWindows (pid proc)) w) as [[[] | e] w1]; simpl in Hi.
        -- unfold ret at 1.
           destruct (enum_windows (top_level os) (pid proc)); [exact Hi |].
           eapply lookup_only_trans; [exact Hi | apply IH].
        -- destruct e; unfold ret, raise; simpl; try exact Hi;
             (eapply lookup_only_trans; [exact Hi | apply IH]).
      * unfold ret at 1. apply IH.
    + unfold raise. simpl. apply lookup_only_refl.
Qed.

Lemma first_app_lookup self apps w : snd (first_app self apps w) = w.
Proof.
  induction apps as [| app more IH]; simpl; [reflexivity |].
  destruct (localizedName app); [| reflexivity].
  destruct (Text.contains _ _); [reflexivity | exact IH].
Qed.

Lemma find_application_window_lookup os self w :
  lookup_only w (snd (find_application_window os self w)).
Proof.
  unfold find_application_window. destruct (platform os).
  - unfold _find_window_windows, try_except, bind at 1.
    pose proof (invoke_lookup os GetAllWindows w eq_refl) as H1.
    destruct (invoke os GetAllWindows w) as [[[] | e] w1]; simpl in H1; [| exact H1].
    destruct (title_pass self (all_windows os)); [exact H1 |].
    unfold bind at 1.
    pose proof (invoke_lookup os ProcessIter w1 eq_refl) as H2.
    destruct (invoke os ProcessIter w1) as [[[] | e] w2]; simpl in H2;
      [| eapply lookup_only_trans; eassumption].
    unfold bind at 1.
    pose proof (process_pass_lookup os self (processes os) w2) as H3.
    destruct (process_pass os self (processes os) w2) as [[found | e] w3]; simpl in H3;
      unfold ret; simpl;
      (eapply lookup_only_trans; [exact H1 | eapply lookup_only_trans; eassumption]).
  - unfold _find_window_macos, try_except, bind at 1.
    pose proof (invoke_lookup os RunningApplications w eq_refl) as H1.
    destruct (invoke os RunningApplications w) as [[[] | e] w1]; simpl in H1; [| exact H1].
    unfold bind at 1.
    pose proof (first_app_lookup self (running_apps os) w1) as H2.
    destruct (first_app self (running_apps os) w1) as [[found | e] w2]; simpl in H2;
      subst w2; exact H1.
  - unfold _find_window_linux, try_except, bind at 1.
    pose proof (invoke_lookup os (Run ["xdotool"; "search"; "--name"; app_name self])
                  w eq_refl) as H1.
    destruct (invoke os _ w) as [[[] | e] w1]; simpl in H1; [| exact H1].
    destruct (xdotool_search os (app_name self)) as [code out].
    destruct (_ && _); exact H1.
Qed.

(** C2 (amended): when nothing on the machine answers to the
    application name, [find_application_window] returns [None] and does
    not raise, and [take_screenshot] returns no path, with the
    not-found message: only look-ups were made, no capture was tried and
    no file was written. *)
Theorem take_screenshot_not_found os self w :
  nothing_matches os self ->
  exists w',
    find_application_window os self w = (Ok None, w')
    /\ take_screenshot os self w = (Ok (None, not_found_message self), w')
    /\ lookup_only w w'.
Proof.
  intros Hno.
  destruct (find_application_window_none os self w Hno) as [w' Hfind].
  exists w'. split; [exact Hfind |]. split.
  - unfold take_screenshot, bind. rewrite Hfind. reflexivity.
  - pose proof (find_application_window_lookup os self w) as Hl.
    rewrite Hfind in Hl. exact Hl.
Qed.

Lemma take_screenshot_not_found_witness :
  exists w',
    take_screenshot (machine Linux [] 200) notepad empty_world
    = (Ok (None, "Application 'notepad' not found or not running"), w')
    /\ files w' = ∅.
Proof.
  destruct (take_screenshot_not_found (machine Linux [] 200) notepad empty_world)
    as (w' & _ & Hshot & Hfiles & _).
  - reflexivity.
  - exists w'. split; [exact Hshot | exact Hfiles].
Defined.

(** C2, as stated, fails: on a Windows machine with no window and no
    process, [find_application_window] returns [None], and
    [take_screenshot] returns no path and has written no file; no
    full-screen capture took place. *)
Lemma take_screenshot_no_fallback :
  fst (find_application_window (machine Win32 [] 200) notepad empty_world) = Ok None
  /\ fst (take_screenshot (machine Win32 [] 200) notepad empty_world)
     = Ok (None, "Application 'notepad' not found or not running")
  /\ log (snd (take_screenshot (machine Win32 [] 200) notepad empty_world))
     = [ProcessIter; GetAllWindows]
  /\ elements (files (snd (take_screenshot (machine Win32 [] 200) notepad empty_world)))
     = [].
Proof. vm_compute. repeat split. Qed.

(** ** The region capture of Windows *)




(** ** The title pass *)

Lemma find_first {A} (p : A -> bool) before x after :
  forallb (fun a => negb (p a)) before = true -> p x = true ->
  List.find p (before ++ x :: after) = Some x.
Proof.
  intros Hb Hx. induction before as [| a before IH]; simpl in *.
  - rewrite Hx. reflexivity.
  - apply andb_true_iff in Hb as [Ha Hb]. apply negb_true_iff in Ha.
    rewrite Ha. apply IH, Hb.
Qed.

Lemma find_none {A} (p : A -> bool) l :
  forallb (fun a => negb (p a)) l = true -> List.find p l = None.
Proof.
  induction l as [| a l IH]; simpl; [reflexivity |].
  intros Hl. apply andb_true_iff in Hl as [Ha Hl]. apply negb_true_iff in Ha.
  rewrite Ha. apply IH, Hl.
Qed.

Lemma forallb_minimized (l : list Window) :
  forallb isMinimized l = true ->
  forallb (fun w => negb (negb (isMinimized w))) l = true.
Proof.
  induction l as [| w l IH]; simpl; [reflexivity |].
  intros Hl. apply andb_true_iff in Hl as [Hw Hl].
  rewrite negb_involutive, Hw. apply IH, Hl.
Qed.

(** C6: for a non-empty application name, the title pass keeps exactly
    the visible windows whose lower-case title contains the name and
    whose width and height are positive, in the order of enumeration; it
    returns the first kept window that is not minimized, the first kept
    window when all of them are minimized, and moves on to the process
    pass ([None]) when none is kept. *)
Theorem title_pass_selects self windows :
  app_name self <> EmptyString ->
  matching_windows self windows
  = List.filter
      (fun window =>
         visible window
         && Text.contains (Text.lower (title window)) (app_name self)
         && (0 <? width window)%Z && (0 <? height window)%Z)
      windows
  /\ (matching_windows self windows = [] -> title_pass self windows = None)
  /\ (forall before window after,
        matching_windows self windows = (before ++ window :: after)%list ->
        forallb isMinimized before = true ->
        isMinimized window = false ->
        title_pass self windows = Some window)
  /\ (forall first rest,
        matching_windows self windows = first :: rest ->
        forallb isMinimized (first :: rest) = true ->
        title_pass self windows = Some first).
Proof.
  intros Happ. split; [| split; [| split]].
  - unfold matching_windows. apply filter_ext. intros window. unfold title_matches.
    destruct (Text.is_empty (title window)) eqn:He.
    + apply is_empty_true in He. rewrite He.
      change (Text.lower EmptyString) with EmptyString.
      destruct (Text.contains EmptyString (app_name self)) eqn:Hc.
      * apply contains_empty in Hc. contradiction.
      * destruct (visible window); reflexivity.
    + destruct (Text.contains _ _), (visible window); reflexivity.
  - unfold title_pass. intros ->. reflexivity.
  - intros before window after Hm Hb Hw. unfold title_pass. rewrite Hm.
    rewrite find_first.
    + destruct before; reflexivity.
    + apply forallb_minimized, Hb.
    + rewrite Hw. reflexivity.
  - intros first rest Hm Hall. unfold title_pass. rewrite Hm.
    rewrite find_none by (apply forallb_minimized, Hall). reflexivity.
Qed.

Lemma title_pass_selects_witness :
  title_pass notepad [hidden_window; minimized notepad_window; notepad_window]
  = Some notepad_window.
Proof.
  destruct (title_pass_selects notepad
              [hidden_window; minimized notepad_window; notepad_window])
    as (_ & _ & Hfirst & _).
  - discriminate.
  - apply (Hfirst [minimized notepad_window] notepad_window []); reflexivity.
Defined.

(** ** Monitoring *)

Section MonitorTheory.
Variable cycle : ApplicationScreenshotter -> M (bool * string).

(** A step changes at most the state of its own thread, which had not finished. *)
Lemma monitoring_loop_shape sys i :
  self (_monitoring_loop cycle sys i) = self sys
  /\ (threads (_monitoring_loop cycle sys i) = threads sys
      \/ exists old new,
           threads sys !! i = Some old /\ is_active old = true
           /\ threads (_monitoring_loop cycle sys i) = <[i := new]> (threads sys)).
Proof.
  unfold _monitoring_loop.
  destruct (threads sys !! i) as [[| | [| rounds] |] |] eqn:Hi; simpl;
    try (split; [reflexivity | left; reflexivity]);
    try (split; [reflexivity | right; do 2 eexists; repeat split; reflexivity]).
  destruct (cycle (self sys) (world sys)) as [outcome w]. simpl.
  split; [reflexivity | right; do 2 eexists; repeat split; reflexivity].
Qed.

Lemma monitoring_loop_self sys i : self (_monitoring_loop cycle sys i) = self sys.
Proof. apply monitoring_loop_shape. Qed.

(** A thread that is active after a step was active before it. *)
Lemma monitoring_loop_active sys i j w :
  threads (_monitoring_loop cycle sys i) !! j = Some w -> is_active w = true ->
  exists w0, threads sys !! j = Some w0 /\ is_active w0 = true.
Proof.
  destruct (monitoring_loop_shape sys i) as [_ [-> | (old & new & Hold & Hact & ->)]].
  - eauto.
  - intros Hj Hw. destruct (decide (i = j)) as [-> | Hne].
    + eauto.
    + rewrite list_lookup_insert_ne in Hj by exact Hne. eauto.
Qed.

Lemma run_threads_self schedule sys :
  self (run_threads cycle schedule sys) = self sys.
Proof.
  revert sys. induction schedule as [| i more IH]; intros sys; simpl; [reflexivity |].
  unfold run_threads in *. simpl. rewrite IH. apply monitoring_loop_self.
Qed.

Lemma run_threads_active schedule sys j w :
  threads (run_threads cycle schedule sys) !! j = Some w -> is_active w = true ->
  exists w0, threads sys !! j = Some w0 /\ is_active w0 = true.
Proof.
  revert sys w. induction schedule as [| i more IH]; intros sys w; simpl; [eauto |].
  unfold run_threads in *. simpl. intros Hj Hw.
  destruct (IH _ _ Hj Hw) as (w1 & Hj1 & Hw1).
  apply (monitoring_loop_active sys i j w1 Hj1 Hw1).
Qed.

(** C10: every [stop_monitoring] that answers success leaves [running]
    false, whatever the threads did while the join waited and whether or
    not the joined thread has finished by then. *)
Theorem stop_monitoring_clears_running sys during_join :
  fst (fst (stop_monitoring cycle sys during_join)) = true ->
  running (self (snd (stop_monitoring cycle sys during_join))) = false.
Proof.
  unfold stop_monitoring. destruct (running (self sys)); simpl; [| discriminate].
  intros _. destruct (monitor_thread (self sys)); [| reflexivity].
  rewrite run_threads_self. reflexivity.
Qed.










End MonitorTheory.

(** The bot is started, its thread enters a capture, and the bot is
    stopped with a join that times out at once: [running] is false
    although the thread has not finished. *)
Lemma stop_monitoring_clears_running_witness :
  let started :=
    _monitoring_loop linux_cycle (snd (start_monitoring (boot notepad empty_world))) 0 in
  let stopped := snd (stop_monitoring linux_cycle started []) in
  running (self stopped) = false
  /\ joined stopped = false
  /\ threads stopped = [Capturing].
Proof.
  cbv zeta. split.
  - apply (stop_monitoring_clears_running linux_cycle). reflexivity.
  - split; reflexivity.
Defined.



(** * Further properties *)

(** ** Locating, further *)

Lemma lower_char_idem c : Text.lower_char (Text.lower_char c) = Text.lower_char c.
Proof.
  destruct c as [[] [] [] [] [] [] [] []]; reflexivity.
Qed.

Lemma lower_idem s : Text.lower (Text.lower s) = Text.lower s.
Proof.
  induction s as [| c r IH]; simpl; [reflexivity |].
  rewrite lower_char_idem, IH. reflexivity.
Qed.

Lemma prefix_lower a s :
  String.prefix a s = true -> Text.lower s = s -> Text.lower a = a.
Proof.
  revert a. induction s as [| d s IH]; intros [| c a]; simpl; try reflexivity;
    try discriminate.
  destruct (ascii_dec c d) as [-> | Hne]; [| discriminate].
  intros Hp Hs. injection Hs as Hd Hr.
  rewrite Hd. f_equal. apply (IH a Hp Hr).
Qed.

Lemma contains_lower s a :
  Text.contains s a = true -> Text.lower s = s -> Text.lower a = a.
Proof.
  induction s as [| d s IH]; simpl.
  - rewrite orb_false_r. intros Hp _. apply prefix_of_empty in Hp. subst. reflexivity.
  - intros Hc Hs. apply orb_true_iff in Hc as [Hp | Hc].
    + apply (prefix_lower a (String d s)); [exact Hp | exact Hs].
    + injection Hs as Hd Hr. apply IH; assumption.
Qed.

Lemma replace_from_lower old s skip :
  Text.lower s = s ->
  Text.lower (Text.replace_from old EmptyString s skip)
  = Text.replace_from old EmptyString s skip.
Proof.
  revert skip. induction s as [| d s IH]; intros skip Hs; [reflexivity |].
  injection Hs as Hd Hr.
  destruct skip as [| k]; cbn [Text.replace_from]; [| apply IH, Hr].
  destruct (String.prefix old (String d s)).
  - apply IH, Hr.
  - simpl. rewrite Hd, IH by exact Hr. reflexivity.
Qed.

Lemma capital_title_matches self window :
  Text.lower (app_name self) <> app_name self -> title_matches self window = false.
Proof.
  intros Hcap. unfold title_matches.
  destruct (Text.contains (Text.lower (title window)) (app_name self)) eqn:Hc.
  - apply contains_lower in Hc; [contradiction | apply lower_idem].
  - rewrite andb_false_r. reflexivity.
Qed.

Lemma capital_process_matches self name :
  Text.lower (app_name self) <> app_name self ->
  process_matches self (Text.lower name) = false.
Proof.
  intros Hcap. unfold process_matches.
  destruct (Text.contains (Text.lower name) (app_name self)) eqn:Hc.
  - apply contains_lower in Hc; [contradiction | apply lower_idem].
  - simpl. apply String.eqb_neq. intros Heq. apply Hcap. rewrite <- Heq.
    unfold Text.replace. apply replace_from_lower, lower_idem.
Qed.

Lemma capital_nothing_matches os self :
  platform os <> Linux ->
  Text.lower (app_name self) <> app_name self ->
  nothing_matches os self.
Proof.
  intros Hp Hcap. unfold nothing_matches. destruct (platform os); [| | contradiction].
  - split.
    + unfold matching_windows. induction (all_windows os) as [| win l IH]; simpl;
        [reflexivity |].
      rewrite capital_title_matches by exact Hcap. exact IH.
    + intros proc name _ _. apply capital_process_matches, Hcap.
  - intros app name _ _.
    destruct (Text.contains (Text.lower name) (app_name self)) eqn:Hc; [| reflexivity].
    apply contains_lower in Hc; [contradiction | apply lower_idem].
Qed.

(** X1: [find_application_window] never raises, on any machine and for
    any bot, and it only looks things up: the files and the clock
    readings are as before, and the calls it made are enumerations and
    the [xdotool] search. *)
Theorem find_application_window_read_only os self w :
  exists found w',
    find_application_window os self w = (Ok found, w') /\ lookup_only w w'.
Proof.
  destruct (find_application_window_total os self w) as (found & w' & Hfind).
  exists found, w'. split; [exact Hfind |].
  pose proof (find_application_window_lookup os self w) as Hl.
  rewrite Hfind in Hl. exact Hl.
Qed.

(** X3: the application name is compared as it stands with lower-case
    titles and process names.  On Windows and macOS a bot whose
    [app_name] changes under [lower], that is a name with a capital
    letter, finds no window, whatever runs on the machine. *)
Theorem capital_letter_never_found os self w :
  platform os <> Linux ->
  Text.lower (app_name self) <> app_name self ->
  fst (find_application_window os self w) = Ok None.
Proof.
  intros Hp Hcap.
  destruct (find_application_window_none os self w (capital_nothing_matches os self Hp Hcap))
    as [w' ->].
  reflexivity.
Qed.

Lemma capital_letter_never_found_witness :
  title (notepad_window) = "Untitled - Notepad"
  /\ fst (find_application_window (machine Win32 [notepad_window] 200)
            (with_app_name "Notepad" notepad) empty_world) = Ok None.
Proof.
  split; [reflexivity |].
  apply (capital_letter_never_found (machine Win32 [notepad_window] 200)
           (with_app_name "Notepad" notepad) empty_world); discriminate.
Defined.

Lemma lstrip_head s c r : Text.lstrip s = String c r -> Text.isspace c = false.
Proof.
  induction s as [| d s IH]; simpl; [discriminate |].
  destruct (Text.isspace d) eqn:Hd; [exact IH |].
  intros Heq. injection Heq as -> _. exact Hd.
Qed.

Lemma strip_head s c r : Text.strip s = String c r -> Text.isspace c = false.
Proof.
  unfold Text.strip. destruct (Text.lstrip s) as [| d t] eqn:Hl; simpl; [discriminate |].
  destruct (_ && _); [discriminate |].
  intros Heq. injection Heq as -> _. apply (lstrip_head _ _ _ Hl).
Qed.

Lemma line_feed_isspace c : (N_of_ascii c =? 10)%N = true -> Text.isspace c = true.
Proof.
  intros Hc. apply N.eqb_eq in Hc. unfold Text.isspace. rewrite Hc. reflexivity.
Qed.

Lemma first_line_strip s :
  Text.is_empty (Text.strip s) = false ->
  Text.is_empty (Text.first_line (Text.strip s)) = false.
Proof.
  destruct (Text.strip s) as [| c r] eqn:Hs; simpl; [discriminate |].
  intros _. destruct (N_of_ascii c =? 10)%N eqn:Hc; [| reflexivity].
  apply line_feed_isspace in Hc. rewrite (strip_head _ _ _ Hs) in Hc. discriminate.
Qed.

Lemma first_line_one_line s :
  Text.has_char (ascii_of_nat 10) (Text.first_line s) = false.
Proof.
  induction s as [| c r IH]; simpl; [reflexivity |].
  destruct (N_of_ascii c =? 10)%N eqn:Hc; simpl; [reflexivity |].
  rewrite IH, orb_false_r. apply Ascii.eqb_neq. intros ->. discriminate.
Qed.

(** X2: a handle [find_application_window] returns is of the kind the
    capture of the platform reads: a window on Windows, an application
    on macOS, and on Linux a window id that is not empty and holds no
    line feed, so the test [if not window] of [take_screenshot] fires
    on [None] only. *)
Theorem found_handle_suits os self w h w' :
  find_application_window os self w = (Ok (Some h), w') ->
  suits (platform os) h = true.
Proof.
  unfold find_application_window, suits. destruct (platform os).
  - unfold _find_window_windows, try_except, bind at 1.
    destruct (invoke os GetAllWindows w) as [[[] | e] w1]; [| unfold ret; discriminate].
    destruct (title_pass self (all_windows os)).
    + unfold ret. intros Heq. injection Heq as <- _. reflexivity.
    + unfold bind at 1.
      destruct (invoke os ProcessIter w1) as [[[] | e] w2]; [| unfold ret; discriminate].
      unfold bind at 1.
      destruct (process_pass os self (processes os) w2) as [[[win |] | e] w3];
        unfold ret; simpl; intros Heq; try discriminate Heq.
      injection Heq as <- _. reflexivity.
  - unfold _find_window_macos, try_except, bind at 1.
    destruct (invoke os RunningApplications w) as [[[] | e] w1]; [| unfold ret; discriminate].
    unfold bind at 1.
    destruct (first_app self (running_apps os) w1) as [[[app |] | e] w2];
      unfold ret; simpl; intros Heq; try discriminate Heq.
    injection Heq as <- _. reflexivity.
  - unfold _find_window_linux, try_except, bind at 1.
    destruct (invoke os _ w) as [[[] | e] w1]; [| unfold ret; discriminate].
    destruct (xdotool_search os (app_name self)) as [code out].
    destruct (code =? 0)%Z; simpl; [| unfold ret; discriminate].
    destruct (Text.is_empty (Text.strip out)) eqn:He; simpl; unfold ret;
      intros Heq; [discriminate Heq |].
    injection Heq as <- _.
    rewrite first_line_strip by exact He. rewrite first_line_one_line. reflexivity.
Qed.

Lemma found_handle_suits_witness :
  let os := with_xdotool (0%Z, " 4194311" +:+ nl +:+ "4194320" +:+ nl) (machine Linux [] 200) in
  fst (find_application_window os notepad empty_world) = Ok (Some (HId "4194311"))
  /\ suits (platform os) (HId "4194311") = true.
Proof.
  cbv zeta. split; [reflexivity |].
  eapply (found_handle_suits
            (with_xdotool (0%Z, " 4194311" +:+ nl +:+ "4194320" +:+ nl) (machine Linux [] 200))
            notepad empty_world).
  reflexivity.
Defined.

Lemma process_pass_unreadable os self before proc after w :
  Forall (fun p => exists name,
              proc_name p = Some name
              /\ process_matches self (Text.lower name) = false) before ->
  proc_name proc = None ->
  exists e, process_pass os self (before ++ proc :: after) w = (Raise e, w).
Proof.
  intros Hbefore Hproc. induction Hbefore as [| p before (name & Hname & Hno) _ IH]; simpl.
  - rewrite Hproc. unfold bind, try_except, raise. eauto.
  - rewrite Hname, Hno. unfold bind at 1. unfold try_except at 1. unfold ret at 1. exact IH.
Qed.

(** X5: a process whose name could not be read ends the search of
    [_find_window_windows]: calling [lower] on [None] raises outside
    the [except] of the loop, and the handler of the method answers
    [None], whatever processes come after it. *)
Theorem unreadable_process_ends_search os self w before proc after :
  platform os = Win32 ->
  title_pass self (all_windows os) = None ->
  processes os = (before ++ proc :: after)%list ->
  Forall (fun p => exists name,
              proc_name p = Some name
              /\ process_matches self (Text.lower name) = false) before ->
  proc_name proc = None ->
  fst (find_application_window os self w) = Ok None.
Proof.
  intros Hp Htitle Hprocs Hbefore Hproc.
  unfold find_application_window. rewrite Hp.
  unfold _find_window_windows, try_except, bind at 1. rewrite Htitle.
  destruct (invoke os GetAllWindows w) as [[[] | e] w1]; [| reflexivity].
  unfold bind at 1.
  destruct (invoke os ProcessIter w1) as [[[] | e] w2]; [| reflexivity].
  unfold bind at 1. rewrite Hprocs.
  destruct (process_pass_unreadable os self before proc after w2 Hbefore Hproc) as [e ->].
  reflexivity.
Qed.

Lemma unreadable_process_ends_search_witness :
  let procs := [ {| proc_name := None; pid := 4 |};
                 {| proc_name := Some "notepad.exe"; pid := 7 |} ] in
  fst (find_application_window
         (with_processes (tl procs) [notepad_hwnd] (machine Win32 [] 200))
         notepad empty_world) = Ok (Some (HWindow (WindowObj notepad_hwnd)))
  /\ fst (find_application_window
            (with_processes procs [notepad_hwnd] (machine Win32 [] 200))
            notepad empty_world) = Ok None.
Proof.
  cbv zeta. split; [reflexivity |].
  apply (unreadable_process_ends_search
           (with_processes [ {| proc_name := None; pid := 4 |};
                             {| proc_name := Some "notepad.exe"; pid := 7 |} ]
              [notepad_hwnd] (machine Win32 [] 200))
           notepad empty_world [] {| proc_name := None; pid := 4 |}
           [ {| proc_name := Some "notepad.exe"; pid := 7 |} ]);
    try reflexivity.
  constructor.
Defined.

Lemma process_pass_first os self before proc after name win w :
  Forall (passed_over os self) before ->
  proc_name proc = Some name ->
  process_matches self (Text.lower name) = true ->
  raises os (EnumWindows (pid proc)) = None ->
  enum_windows (top_level os) (pid proc) = Some win ->
  fst (process_pass os self (before ++ proc :: after) w) = Ok (Some win).
Proof.
  intros Hbefore Hname Hmatch Hraise Henum. revert w.
  induction Hbefore as [| p before (n & Hn & Hskip) _ IH]; intros w; simpl.
  - rewrite Hname, Hmatch. unfold bind, try_except, invoke. rewrite Hraise.
    unfold ret. rewrite Henum. reflexivity.
  - rewrite Hn. unfold bind at 1. unfold try_except at 1.
    destruct Hskip as [-> | [Hr He]].
    + unfold ret at 1. apply IH.
    + destruct (process_matches self (Text.lower n)).
      * unfold bind at 1. unfold invoke. rewrite Hr. unfold ret at 1. rewrite He. apply IH.
      * unfold ret at 1. apply IH.
Qed.

(** X4: the process pass of [_find_window_windows].  When no title
    matches and the enumerations do not raise, the processes are tried
    in order: one whose name does not match, or that owns no visible
    window with a title, is passed over, and the answer is the window
    of the first matching process that owns one. *)
Theorem process_pass_selects os self w before proc after name win :
  platform os = Win32 ->
  raises os GetAllWindows = None ->
  raises os ProcessIter = None ->
  title_pass self (all_windows os) = None ->
  processes os = (before ++ proc :: after)%list ->
  Forall (passed_over os self) before ->
  proc_name proc = Some name ->
  process_matches self (Text.lower name) = true ->
  raises os (EnumWindows (pid proc)) = None ->
  enum_windows (top_level os) (pid proc) = Some win ->
  fst (find_application_window os self w) = Ok (Some (HWindow win)).
Proof.
  intros Hp Hall Hiter Htitle Hprocs Hbefore Hname Hmatch Hraise Henum.
  unfold find_application_window. rewrite Hp.
  unfold _find_window_windows, try_except, bind at 1.
  unfold invoke at 1. rewrite Hall, Htitle.
  unfold bind at 1. unfold invoke at 1. rewrite Hiter.
  unfold bind at 1. rewrite Hprocs.
  pose proof (process_pass_first os self before proc after name win
                (logged ProcessIter (logged GetAllWindows w))
                Hbefore Hname Hmatch Hraise Henum) as Hpass.
  destruct (process_pass os self (before ++ proc :: after) _) as [[found | e] w3];
    simpl in Hpass; inversion Hpass; subst. reflexivity.
Qed.

Lemma process_pass_selects_witness :
  fst (find_application_window
         (with_processes
            [ {| proc_name := Some "System"; pid := 4 |};
              {| proc_name := Some "Notepad.exe"; pid := 5 |};
              {| proc_name := Some "notepad.exe"; pid := 7 |} ]
            [notepad_hwnd] (machine Win32 [] 200))
         notepad empty_world)
  = Ok (Some (HWindow (WindowObj notepad_hwnd))).
Proof.
  apply (process_pass_selects
           (with_processes
              [ {| proc_name := Some "System"; pid := 4 |};
                {| proc_name := Some "Notepad.exe"; pid := 5 |};
                {| proc_name := Some "notepad.exe"; pid := 7 |} ]
              [notepad_hwnd] (machine Win32 [] 200))
           notepad empty_world
           [ {| proc_name := Some "System"; pid := 4 |};
             {| proc_name := Some "Notepad.exe"; pid := 5 |} ]
           {| proc_name := Some "notepad.exe"; pid := 7 |} [] "notepad.exe");
    try reflexivity.
  repeat constructor.
  - exists "System". split; [reflexivity | left; reflexivity].
  - exists "Notepad.exe". split; [reflexivity | right; split; reflexivity].
Defined.

(** ** Capture and delivery, further *)

Section Frame.
Variable paths : gset string.

Lemma touches_only_refl w : touches_only paths w w.
Proof. intros path _. reflexivity. Qed.

Lemma touches_only_trans w1 w2 w3 :
  touches_only paths w1 w2 -> touches_only paths w2 w3 -> touches_only paths w1 w3.
Proof.
  intros H12 H23 path Hp. rewrite (H23 path Hp). apply (H12 path Hp).
Qed.

Lemma touches_only_files w w' : files w' = files w -> touches_only paths w w'.
Proof. intros Hf path _. rewrite Hf. reflexivity. Qed.

Lemma keeps_ret {A} (a : A) : keeps paths (ret a).
Proof. intros w. apply touches_only_refl. Qed.

Lemma keeps_raise {A} e : keeps paths (raise (A := A) e).
Proof. intros w. apply touches_only_refl. Qed.

Lemma keeps_bind {A B} (m : M A) (k : A -> M B) :
  keeps paths m -> (forall a, keeps paths (k a)) -> keeps paths (bind m k).
Proof.
  intros Hm Hk w. unfold bind. specialize (Hm w).
  destruct (m w) as [[a | e] w1]; simpl in Hm; [| exact Hm].
  eapply touches_only_trans; [exact Hm | apply Hk].
Qed.

Lemma keeps_try {A} (m : M A) (h : exn -> M A) :
  keeps paths m -> (forall e, keeps paths (h e)) -> keeps paths (try_except m h).
Proof.
  intros Hm Hh w. unfold try_except. specialize (Hm w).
  destruct (m w) as [[a | e] w1]; simpl in Hm; [exact Hm |].
  eapply touches_only_trans; [exact Hm | apply Hh].
Qed.

Lemma keeps_invoke os c : keeps paths (invoke os c).
Proof.
  intros w. unfold invoke. destruct (raises os c); apply touches_only_files; reflexivity.
Qed.

Lemma keeps_now os : keeps paths (now os).
Proof. intros w. apply touches_only_files. reflexivity. Qed.

Lemma keeps_path_exists path : keeps paths (path_exists path).
Proof. intros w. apply touches_only_refl. Qed.

Lemma keeps_create path : path ∈ paths -> keeps paths (create path).
Proof.
  intros Hin w other Hother. simpl. rewrite elem_of_union, elem_of_singleton.
  split; [intros [-> | H]; [contradiction | exact H] | intros H; right; exact H].
Qed.

Lemma keeps_makedirs os path : path ∈ paths -> keeps paths (makedirs os path).
Proof.
  intros Hin. apply keeps_bind; [apply keeps_invoke | intros _; apply keeps_create, Hin].
Qed.

Lemma keeps_save os path : path ∈ paths -> keeps paths (save os path).
Proof.
  intros Hin. apply keeps_bind; [apply keeps_invoke | intros _; apply keeps_create, Hin].
Qed.

Lemma keeps_run_tool os argv path : path ∈ paths -> keeps paths (run_tool os argv path).
Proof.
  intros Hin. apply keeps_bind; [apply keeps_invoke |].
  intros _. destruct (tool_writes os argv); [apply keeps_create, Hin | apply keeps_ret].
Qed.

Lemma keeps_remove os path : path ∈ paths -> keeps paths (remove os path).
Proof.
  intros Hin. apply keeps_bind; [apply keeps_invoke |].
  intros _ w. destruct (bool_decide (path ∈ files w)); simpl; [| apply touches_only_refl].
  intros other Hother. simpl. rewrite elem_of_difference, elem_of_singleton.
  split; [intros [H _]; exact H | intros H; split; [exact H | intros ->; contradiction]].
Qed.

Lemma keeps_open os path : keeps paths (open os path).
Proof.
  apply keeps_bind; [apply keeps_invoke |].
  intros _ w. destruct (bool_decide (path ∈ files w)); apply touches_only_refl.
Qed.

End Frame.

Create HintDb frame discriminated.

#[local] Hint Resolve keeps_ret keeps_raise keeps_invoke keeps_now keeps_path_exists
  keeps_open keeps_save keeps_makedirs keeps_run_tool keeps_remove keeps_create
  keeps_bind keeps_try : frame.
#[local] Hint Extern 1 (_ ∈ {[ _ ]}) => (apply elem_of_singleton_2; reflexivity) : frame.
#[local] Hint Extern 2 (keeps _ (match ?x with _ => _ end)) => destruct x : frame.

Lemma keeps_region_capture os window filename :
  keeps {[filename]} (region_capture os window filename).
Proof. unfold region_capture. eauto 30 with frame. Qed.

Lemma keeps_screenshot_windows os window filename :
  keeps {[filename]} (_screenshot_windows os window filename).
Proof. unfold _screenshot_windows, direct_capture, region_capture. eauto 40 with frame. Qed.

Lemma keeps_bounds_capture os name windows filename :
  keeps {[filename]} (bounds_capture os name windows filename).
Proof. induction windows as [| window more IH]; simpl; eauto 20 with frame. Qed.

Lemma keeps_screenshot_macos os app filename :
  keeps {[filename]} (_screenshot_macos os app filename).
Proof.
  unfold _screenshot_macos. pose proof (keeps_bounds_capture os) as Hloop.
  eauto 40 with frame.
Qed.

Lemma keeps_screenshot_linux os window_id filename :
  keeps {[filename]} (_screenshot_linux os window_id filename).
Proof.
  unfold _screenshot_linux, pass_called_process_error, pass_tool_error.
  eauto 60 with frame.
Qed.

Lemma keeps_capture os window filename : keeps {[filename]} (capture os window filename).
Proof.
  unfold capture. destruct (platform os), window; try apply keeps_raise.
  - apply keeps_screenshot_windows.
  - apply keeps_screenshot_macos.
  - apply keeps_screenshot_linux.
Qed.

Lemma screenshot_windows_written os window filename w f text w' :
  _screenshot_windows os window filename w = (Ok (Some f, text), w') ->
  filename ∈ files w'.
Proof.
  unfold _screenshot_windows, direct_capture, region_capture, save. unfold_m. simpl.
  destruct (current_rect os window) as [[[l t] wd] h].
  written.
Qed.

Lemma bounds_capture_written os name windows filename w f text w' :
  bounds_capture os name windows filename w = (Ok (Some (Some f, text)), w') ->
  filename ∈ files w'.
Proof.
  induction windows as [| window more IH]; simpl.
  - unfold_m. discriminate.
  - destruct (Text.contains _ name); [| exact IH].
    destruct (bounds window) as [[[[x y] wd] h] |]; [| exact IH].
    destruct ((0 <? wd) && (0 <? h))%Z; [| exact IH].
    unfold save. unfold_m. simpl. written.
Qed.

Lemma screenshot_macos_written os app filename w f text w' :
  _screenshot_macos os app filename w = (Ok (Some f, text), w') -> filename ∈ files w'.
Proof.
  unfold _screenshot_macos. unfold try_except at 1. unfold bind at 1.
  destruct (invoke os ActivateApp w) as [[[] | e] w1]; simpl.
  - unfold bind at 1. unfold try_except at 1. unfold bind at 1.
    destruct (invoke os WindowList w1) as [[[] | e] w2]; simpl.
    + destruct (localizedName app) as [name |].
      * destruct (bounds_capture os (Text.lower name) (window_list os) filename w2)
          as [[[[[f' |] text'] |] | e] w3] eqn:Hb; simpl.
        -- intros Heq. inversion Heq; subst.
           apply (bounds_capture_written _ _ _ _ _ _ _ _ Hb).
        -- intros Heq. inversion Heq.
        -- unfold save. unfold_m. simpl. written.
        -- unfold save. unfold_m. simpl. written.
      * unfold save. unfold_m. simpl. written.
    + unfold save. unfold_m. simpl. written.
  - unfold ret. intros Heq. inversion Heq.
Qed.

Lemma screenshot_linux_written os window_id filename w f text w' :
  _screenshot_linux os window_id filename w = (Ok (Some f, text), w') ->
  filename ∈ files w'.
Proof.
  unfold _screenshot_linux, run_tool, save, pass_called_process_error, pass_tool_error.
  unfold_m. simpl. written.
Qed.

Lemma capture_written os window filename w f text w' :
  capture os window filename w = (Ok (Some f, text), w') -> filename ∈ files w'.
Proof.
  unfold capture. destruct (platform os), window;
    try (unfold raise; discriminate).
  - apply screenshot_windows_written.
  - apply screenshot_macos_written.
  - apply screenshot_linux_written.
Qed.

(** [take_screenshot] once the window is found. *)
Lemma take_screenshot_found os self w window w1 :
  find_application_window os self w = (Ok (Some window), w1) ->
  take_screenshot os self w
  = if bool_decide ("screenshots" ∈ files w1) then shoot os self window w1
    else match raises os (Makedirs "screenshots") with
         | Some e => (Raise e, logged (Makedirs "screenshots") w1)
         | None =>
             shoot os self window
               (with_files ({["screenshots"]} ∪ files w1) (logged (Makedirs "screenshots") w1))
         end.
Proof.
  intros Hfind. unfold take_screenshot. unfold bind at 1. rewrite Hfind.
  unfold bind at 1. unfold path_exists at 1.
  destruct (bool_decide ("screenshots" ∈ files w1)).
  - reflexivity.
  - unfold bind at 1. unfold makedirs, bind at 1, invoke.
    destruct (raises os (Makedirs "screenshots")); reflexivity.
Qed.

Lemma shoot_total os self window w :
  exists r w', shoot os self window w = (Ok r, w').
Proof.
  unfold shoot, try_except.
  match goal with |- context [capture ?a ?b ?c ?d] => destruct (capture a b c d) as [[r | e] w'] end;
    unfold ret; eauto.
Qed.

Lemma shoot_file os self window w f text w' :
  shoot os self window w = (Ok (Some f, text), w') ->
  f = screenshot_path os self (clock os (ticks w)) /\ f ∈ files w'.
Proof.
  unfold shoot, try_except.
  match goal with |- context [capture ?a ?b ?c ?d] =>
    destruct (capture a b c d) as [[[[f' |] text'] | e] w2] eqn:Hc end;
    unfold ret; intros Heq; inversion Heq; subst.
  pose proof (capture_path _ _ _ _ _ _ _ Hc) as ->.
  split; [reflexivity | apply (capture_written _ _ _ _ _ _ _ Hc)].
Qed.

Lemma keeps_shoot os self window w :
  touches_only {[screenshot_path os self (clock os (ticks w))]} w
    (snd (shoot os self window w)).
Proof.
  unfold shoot.
  match goal with |- context [try_except ?m ?h ?w0] =>
    assert (Hk : keeps {[screenshot_path os self (clock os (ticks w))]} (try_except m h))
      by (apply keeps_try; [apply keeps_capture | intros e; apply keeps_ret]);
    specialize (Hk w0); exact Hk
  end.
Qed.

Lemma touches_only_weaken paths paths' w w' :
  paths ⊆ paths' -> touches_only paths w w' -> touches_only paths' w w'.
Proof.
  intros Hsub Ht path Hpath. apply Ht. intros Hin. apply Hpath, Hsub, Hin.
Qed.

Lemma take_screenshot_written os self w f text w' :
  take_screenshot os self w = (Ok (Some f, text), w') ->
  f = screenshot_path os self (clock os (ticks w)) /\ f ∈ files w'.
Proof.
  destruct (find_application_window_total os self w) as (found & w1 & Hfind).
  pose proof (find_application_window_lookup os self w) as Hl.
  rewrite Hfind in Hl. destruct Hl as (_ & Hticks & _). simpl in Hticks.
  destruct found as [window |].
  - rewrite (take_screenshot_found _ _ _ _ _ Hfind).
    destruct (bool_decide ("screenshots" ∈ files w1)).
    + intros Hshoot. apply shoot_file in Hshoot. rewrite Hticks in Hshoot. exact Hshoot.
    + destruct (raises os (Makedirs "screenshots")); [discriminate |].
      intros Hshoot. apply shoot_file in Hshoot. simpl in Hshoot.
      rewrite Hticks in Hshoot. exact Hshoot.
  - unfold take_screenshot, bind. rewrite Hfind. unfold ret. discriminate.
Qed.

(** X6: a path [take_screenshot] returns is
    screenshots/screenshot_<app_name>_<YYYYMMDD_HHMMSS>.png for the
    reading of the clock taken after the window was found, and the file
    is on disk when the method returns. *)
Theorem take_screenshot_file os self w f text w' :
  take_screenshot os self w = (Ok (Some f, text), w') ->
  f = screenshot_path os self (clock os (ticks w)) /\ f ∈ files w'.
Proof. apply take_screenshot_written. Qed.

Lemma take_screenshot_file_witness :
  fst (take_screenshot (machine Win32 [notepad_window] 200) notepad empty_world)
  = Ok (Some notepad_shot, check_mark +:+ " Used screen region capture method")
  /\ notepad_shot = screenshot_path (machine Win32 [notepad_window] 200) notepad monday_afternoon
  /\ notepad_shot
     ∈ files (snd (take_screenshot (machine Win32 [notepad_window] 200) notepad empty_world)).
Proof.
  split; [reflexivity |].
  apply (take_screenshot_file (machine Win32 [notepad_window] 200) notepad empty_world
           notepad_shot (check_mark +:+ " Used screen region capture method")).
  vm_compute. reflexivity.
Defined.

Lemma pair_subseteq_l (a b : string) : ({[a]} : gset string) ⊆ {[a; b]}.
Proof. set_solver. Qed.

Lemma pair_subseteq_r (a b : string) : ({[b]} : gset string) ⊆ {[a; b]}.
Proof. set_solver. Qed.

Lemma take_screenshot_keeps os self w :
  touches_only {["screenshots"; screenshot_path os self (clock os (ticks w))]} w
    (snd (take_screenshot os self w)).
Proof.
  destruct (find_application_window_total os self w) as (found & w1 & Hfind).
  pose proof (find_application_window_lookup os self w) as Hl.
  rewrite Hfind in Hl. destruct Hl as (Hf & Hticks & _). simpl in Hf, Hticks.
  eapply touches_only_trans; [apply touches_only_files, Hf |].
  rewrite <- Hticks.
  destruct found as [window |].
  - rewrite (take_screenshot_found _ _ _ _ _ Hfind).
    destruct (bool_decide ("screenshots" ∈ files w1)).
    + eapply touches_only_weaken; [apply pair_subseteq_r | apply keeps_shoot].
    + destruct (raises os (Makedirs "screenshots")).
      * apply touches_only_files. reflexivity.
      * eapply touches_only_trans.
        -- eapply touches_only_weaken; [apply pair_subseteq_l |].
           apply (keeps_create {["screenshots"]} "screenshots" (elem_of_singleton_2 _ _ eq_refl)
                    (logged (Makedirs "screenshots") w1)).
        -- eapply touches_only_weaken; [apply pair_subseteq_r |].
           apply (keeps_shoot os self window
                    (with_files ({["screenshots"]} ∪ files w1)
                       (logged (Makedirs "screenshots") w1))).
  - unfold take_screenshot, bind. rewrite Hfind. apply touches_only_refl.
Qed.

Lemma take_screenshot_total os self w :
  "screenshots" ∈ files w \/ raises os (Makedirs "screenshots") = None ->
  exists r w', take_screenshot os self w = (Ok r, w').
Proof.
  intros Hdir.
  destruct (find_application_window_total os self w) as (found & w1 & Hfind).
  pose proof (find_application_window_lookup os self w) as Hl.
  rewrite Hfind in Hl. destruct Hl as (Hf & _). simpl in Hf.
  destruct found as [window |].
  - rewrite (take_screenshot_found _ _ _ _ _ Hfind). rewrite Hf.
    destruct (bool_decide ("screenshots" ∈ files w)) eqn:Hd.
    + apply shoot_total.
    + destruct Hdir as [Hin | ->]; [| apply shoot_total].
      apply bool_decide_eq_false in Hd. contradiction.
  - unfold take_screenshot, bind. rewrite Hfind. unfold ret. eauto.
Qed.

Lemma cleanup_screenshot_total os self filename w :
  exists ok text w',
    cleanup_screenshot os self filename w = (Ok (ok, text), w')
    /\ touches_only {[filename]} w w'.
Proof.
  assert (Hk : keeps {[filename]} (cleanup_screenshot os self filename)).
  { unfold cleanup_screenshot. eauto 20 with frame. }
  specialize (Hk w). revert Hk.
  unfold cleanup_screenshot. destruct (delete_after_send self).
  - unfold try_except.
    destruct ((remove os filename;;; ret (true, check_mark +:+ " Deleted screenshot: " +:+ filename)) w)
      as [[[ok text] | e] w']; unfold ret; simpl; eauto.
  - unfold ret. simpl. eauto.
Qed.

Section Pipeline.
Context {lib : Format.StrLib}.
Variable os : OS.
Variable self : ApplicationScreenshotter.

Lemma take_single_screenshot_deliver :
  take_single_screenshot os self
  = if Text.is_empty (webhook_url self) || Text.is_empty (app_name self)
    then ret (false, config_message)
    else shot <- take_screenshot os self ;; deliver os self (send_to_discord os) shot.
Proof. reflexivity. Qed.

Lemma updated_take_single_screenshot_deliver :
  Updated.take_single_screenshot os self
  = if Text.is_empty (webhook_url self) || Text.is_empty (app_name self)
    then ret (false, config_message)
    else shot <- take_screenshot os self ;; deliver os self (Updated.send_to_discord os) shot.
Proof. reflexivity. Qed.

Lemma deliver_total
    (send : ApplicationScreenshotter -> string -> M (bool * string)) filename message w :
  (forall f w0, exists ok text w', send self f w0 = (Ok (ok, text), w') /\ files w' = files w0) ->
  exists ok text w',
    deliver os self send (filename, message) w = (Ok (ok, text), w')
    /\ forall paths, (forall f, filename = Some f -> f ∈ paths) -> touches_only paths w w'.
Proof.
  intros Hsend. unfold deliver. unfold bind at 1.
  destruct filename as [f |].
  - unfold captured. destruct (Text.is_empty f).
    + unfold ret. do 3 eexists. split; [reflexivity |]. intros; apply touches_only_refl.
    + unfold path_exists. destruct (bool_decide (f ∈ files w)).
      * unfold bind at 1. destruct (Hsend f w) as (ok & text & w1 & -> & Hf1).
        destruct ok.
        -- unfold bind.
           destruct (cleanup_screenshot_total os self f w1) as (ok2 & text2 & w2 & -> & Hk).
           unfold ret. do 3 eexists. split; [reflexivity |].
           intros paths Hin. eapply touches_only_trans; [apply touches_only_files, Hf1 |].
           eapply touches_only_weaken; [| exact Hk].
           apply singleton_subseteq_l, Hin. reflexivity.
        -- unfold ret. do 3 eexists. split; [reflexivity |].
           intros; apply touches_only_files, Hf1.
      * unfold ret. do 3 eexists. split; [reflexivity |]. intros; apply touches_only_refl.
  - unfold captured, ret. do 3 eexists. split; [reflexivity |]. intros; apply touches_only_refl.
Qed.

(** The cycle built on [send]: it returns when the directory of the
    screenshots is there or can be made, and creates or removes nothing
    but that directory and its own screenshot. *)
Lemma cycle_total
    (send : ApplicationScreenshotter -> string -> M (bool * string)) w :
  (forall f w0, exists ok text w', send self f w0 = (Ok (ok, text), w') /\ files w' = files w0) ->
  "screenshots" ∈ files w \/ raises os (Makedirs "screenshots") = None ->
  exists ok text w',
    (shot <- take_screenshot os self ;; deliver os self send shot) w = (Ok (ok, text), w').
Proof.
  intros Hsend Hdir. unfold bind at 1.
  destruct (take_screenshot_total os self w Hdir) as ([filename message] & w1 & ->).
  destruct (deliver_total send filename message w1 Hsend) as (ok & text & w2 & -> & _).
  eauto.
Qed.

Lemma cycle_keeps
    (send : ApplicationScreenshotter -> string -> M (bool * string)) w :
  (forall f w0, exists ok text w', send self f w0 = (Ok (ok, text), w') /\ files w' = files w0) ->
  touches_only {["screenshots"; screenshot_path os self (clock os (ticks w))]} w
    (snd ((shot <- take_screenshot os self ;; deliver os self send shot) w)).
Proof.
  intros Hsend. unfold bind at 1.
  pose proof (take_screenshot_keeps os self w) as Hshot.
  destruct (take_screenshot os self w) as [[[filename message] | e] w1] eqn:Hs;
    simpl in Hshot; [| exact Hshot].
  destruct (deliver_total send filename message w1 Hsend) as (ok & text & w2 & -> & Hk).
  simpl. eapply touches_only_trans; [exact Hshot |]. apply Hk.
  intros f ->. destruct (take_screenshot_written _ _ _ _ _ _ Hs) as [-> _].
  apply elem_of_union_r, elem_of_singleton. reflexivity.
Qed.

(** X7: when the directory of the screenshots exists, or [os.makedirs]
    does not raise, [take_single_screenshot] returns an answer: no
    exception of the finders, the captures, the upload or the removal
    leaves it.  This holds in both files. *)
Theorem take_single_screenshot_returns w :
  "screenshots" ∈ files w \/ raises os (Makedirs "screenshots") = None ->
  (exists ok text w', take_single_screenshot os self w = (Ok (ok, text), w'))
  /\ (exists ok text w', Updated.take_single_screenshot os self w = (Ok (ok, text), w')).
Proof.
  intros Hdir.
  rewrite take_single_screenshot_deliver, updated_take_single_screenshot_deliver.
  destruct (_ || _); [unfold ret; split; eauto |].
  split; apply cycle_total; try exact Hdir; intros f w0.
  - apply send_to_discord_total.
  - apply updated_send_to_discord_total.
Qed.

(** X8: the exception that does leave.  [take_screenshot] makes the
    directory outside any [try]: when a window is found, the directory
    is missing and [os.makedirs] raises, the exception leaves
    [take_screenshot] and [take_single_screenshot], in both files. *)
Theorem makedirs_error_escapes w window w1 e :
  webhook_url self <> EmptyString ->
  app_name self <> EmptyString ->
  find_application_window os self w = (Ok (Some window), w1) ->
  "screenshots" ∉ files w ->
  raises os (Makedirs "screenshots") = Some e ->
  take_screenshot os self w = (Raise e, logged (Makedirs "screenshots") w1)
  /\ take_single_screenshot os self w = (Raise e, logged (Makedirs "screenshots") w1)
  /\ Updated.take_single_screenshot os self w = (Raise e, logged (Makedirs "screenshots") w1).
Proof.
  intros Hurl Happ Hfind Hdir Hraise.
  assert (Hshot : take_screenshot os self w = (Raise e, logged (Makedirs "screenshots") w1)).
  { rewrite (take_screenshot_found _ _ _ _ _ Hfind).
    pose proof (find_application_window_lookup os self w) as Hl.
    rewrite Hfind in Hl. destruct Hl as (Hf & _). simpl in Hf. rewrite Hf.
    rewrite (bool_decide_eq_false_2 _ Hdir), Hraise. reflexivity. }
  split; [exact Hshot |].
  rewrite take_single_screenshot_deliver, updated_take_single_screenshot_deliver.
  apply is_empty_false in Hurl, Happ. rewrite Hurl, Happ. simpl.
  unfold bind. rewrite Hshot. split; reflexivity.
Qed.

(** X9: [take_single_screenshot] creates or removes no path but the
    directory of the screenshots and the screenshot of this very call;
    every other file is there afterwards exactly when it was there
    before.  This holds in both files. *)
Theorem take_single_screenshot_touches w :
  let own : gset string :=
    {["screenshots"; screenshot_path os self (clock os (ticks w))]} in
  touches_only own w (snd (take_single_screenshot os self w))
  /\ touches_only own w (snd (Updated.take_single_screenshot os self w)).
Proof.
  cbv zeta.
  rewrite take_single_screenshot_deliver, updated_take_single_screenshot_deliver.
  destruct (_ || _); [split; apply touches_only_refl |].
  split; apply cycle_keeps; intros f w0.
  - apply send_to_discord_total.
  - apply updated_send_to_discord_total.
Qed.

End Pipeline.

Lemma take_single_screenshot_returns_witness :
  (exists ok text w',
      take_single_screenshot (lib := Format.no_lib) (machine Win32 [notepad_window] 200)
        notepad empty_world = (Ok (ok, text), w'))
  /\ (exists ok text w',
        Updated.take_single_screenshot (machine Win32 [notepad_window] 200)
          notepad empty_world = (Ok (ok, text), w')).
Proof.
  apply (take_single_screenshot_returns (lib := Format.no_lib)
           (machine Win32 [notepad_window] 200) notepad empty_world).
  right. reflexivity.
Defined.

Lemma makedirs_error_escapes_witness :
  let os := failing_on is_makedirs (machine Win32 [notepad_window] 200) in
  let w' := logged (Makedirs "screenshots") (logged GetAllWindows empty_world) in
  take_screenshot os notepad empty_world
  = (Raise (OSError "[Errno 13] Permission denied"), w')
  /\ take_single_screenshot (lib := Format.no_lib) os notepad empty_world
     = (Raise (OSError "[Errno 13] Permission denied"), w')
  /\ Updated.take_single_screenshot os notepad empty_world
     = (Raise (OSError "[Errno 13] Permission denied"), w').
Proof.
  cbv zeta.
  apply (makedirs_error_escapes (lib := Format.no_lib)
           (failing_on is_makedirs (machine Win32 [notepad_window] 200))
           notepad empty_world (HWindow notepad_window) (logged GetAllWindows empty_world)).
  - discriminate.
  - discriminate.
  - reflexivity.
  - intros Hin. apply (bool_decide_pack _) in Hin. vm_compute in Hin. exact Hin.
  - reflexivity.
Defined.

(** X10: [send_to_discord] never raises and leaves the files alone; it
    answers success exactly when the file could be opened, the request
    went through and the status code was 200. *)
Theorem send_to_discord_success_iff {lib : Format.StrLib} os self filename w :
  let blank := Text.is_empty (Text.strip (custom_message self)) in
  let message := format_message self (fun k => clock os (ticks w + k)%nat) in
  let data := post_data (if blank then None else Some message) in
  exists ok text w',
    send_to_discord os self filename w = (Ok (ok, text), w')
    /\ files w' = files w
    /\ (ok = true <->
        raises os (Open filename) = None
        /\ filename ∈ files w
        /\ raises os (Post (webhook_url self) data filename) = None
        /\ status_code os (webhook_url self) data = 200%Z).
Proof.
  cbv zeta.
  destruct (raises os (Open filename)) as [e |] eqn:Hopen.
  - unfold send_to_discord, open. unfold_m. rewrite Hopen. simpl.
    do 3 eexists. split; [reflexivity |]. split; [reflexivity |].
    split; [discriminate | intros (Hn & _); discriminate].
  - destruct (decide (filename ∈ files w)) as [Hin | Hout].
    + rewrite (send_to_discord_opened os self filename w Hopen Hin). cbv zeta.
      destruct (raises os (Post _ _ filename)) as [e |].
      * do 3 eexists. split; [reflexivity |]. split; [reflexivity |].
        split; [discriminate | intros (_ & _ & Hn & _); discriminate].
      * destruct (status_code os (webhook_url self) _ =? 200)%Z eqn:Hcode.
        -- do 3 eexists. split; [reflexivity |]. split; [reflexivity |].
           apply Z.eqb_eq in Hcode. tauto.
        -- do 3 eexists. split; [reflexivity |]. split; [reflexivity |].
           apply Z.eqb_neq in Hcode.
           split; [discriminate | intros (_ & _ & _ & Hc); contradiction].
    + unfold send_to_discord, open. unfold_m. rewrite Hopen. simpl.
      rewrite (bool_decide_eq_false_2 _ Hout). simpl.
      do 3 eexists. split; [reflexivity |]. split; [reflexivity |].
      split; [discriminate | intros (_ & Hin & _); contradiction].
Qed.

(** X11: the same for [send_to_discord] of [updated.py], whose request
    always carries the text "Screenshot of <app_name> - <timestamp>". *)
Theorem updated_send_to_discord_success_iff os self filename w :
  let data : gmap string string :=
    {[ "content" := "Screenshot of " +:+ app_name self +:+ " - "
                    +:+ Strftime.strftime "%Y-%m-%d %H:%M:%S" (clock os (ticks w)) ]} in
  exists ok text w',
    Updated.send_to_discord os self filename w = (Ok (ok, text), w')
    /\ files w' = files w
    /\ (ok = true <->
        raises os (Open filename) = None
        /\ filename ∈ files w
        /\ raises os (Post (webhook_url self) data filename) = None
        /\ status_code os (webhook_url self) data = 200%Z).
Proof.
  cbv zeta. unfold Updated.send_to_discord, open. unfold_m. simpl.
  destruct (raises os (Open filename)) as [e |] eqn:Hopen; simpl.
  - do 3 eexists. split; [reflexivity |]. split; [reflexivity |].
    split; [discriminate | intros (Hn & _); discriminate].
  - destruct (decide (filename ∈ files w)) as [Hin | Hout].
    + rewrite (bool_decide_eq_true_2 _ Hin). simpl.
      destruct (raises os (Post _ _ filename)) as [e |]; simpl.
      * do 3 eexists. split; [reflexivity |]. split; [reflexivity |].
        split; [discriminate | intros (_ & _ & Hn & _); discriminate].
      * destruct (status_code os (webhook_url self) _ =? 200)%Z eqn:Hcode.
        -- do 3 eexists. split; [reflexivity |]. split; [reflexivity |].
           apply Z.eqb_eq in Hcode. tauto.
        -- do 3 eexists. split; [reflexivity |]. split; [reflexivity |].
           apply Z.eqb_neq in Hcode.
           split; [discriminate | intros (_ & _ & _ & Hc); contradiction].
    + rewrite (bool_decide_eq_false_2 _ Hout). simpl.
      do 3 eexists. split; [reflexivity |]. split; [reflexivity |].
      split; [discriminate | intros (_ & Hin & _); contradiction].
Qed.

(** X12: [cleanup_screenshot] never raises.  It answers success when
    nothing is to delete or the file was removed, failure when the file
    is missing or [os.remove] raises; the only path that can go is the
    one it was given, and with [delete_after_send] false nothing
    happens at all. *)
Theorem cleanup_screenshot_outcome os self filename w :
  exists ok text w',
    cleanup_screenshot os self filename w = (Ok (ok, text), w')
    /\ (ok = true <->
        delete_after_send self = false
        \/ (raises os (Remove filename) = None /\ filename ∈ files w))
    /\ files w' = (if delete_after_send self && ok then files w ∖ {[filename]} else files w)
    /\ (delete_after_send self = false -> w' = w /\ text = "Screenshot kept").
Proof.
  unfold cleanup_screenshot, remove. unfold_m.
  destruct (delete_after_send self); simpl.
  - destruct (raises os (Remove filename)) as [e |]; simpl.
    + do 3 eexists. split; [reflexivity |]. repeat split; try discriminate.
      intros [Hd | [Hr _]]; discriminate.
    + destruct (decide (filename ∈ files w)) as [Hin | Hout].
      * rewrite (bool_decide_eq_true_2 _ Hin). simpl.
        do 3 eexists. split; [reflexivity |]. repeat split; try discriminate.
        right. split; [reflexivity | exact Hin].
      * rewrite (bool_decide_eq_false_2 _ Hout). simpl.
        do 3 eexists. split; [reflexivity |]. repeat split; try discriminate.
        intros [Hd | [_ Hin]]; [discriminate | contradiction].
  - do 3 eexists. split; [reflexivity |]. repeat split. left. reflexivity.
Qed.




(** X14: method 1 of [_screenshot_linux] passes over
    [CalledProcessError] only.  Any other exception of [xdotool] or
    [import], such as the [FileNotFoundError] of a program that is not
    installed, ends the capture with the error answer: the later
    methods are not tried and no file is written. *)
Theorem screenshot_linux_first_method_aborts os window_id filename w e :
  is_called_process_error e = false ->
  raises os (Run ["xdotool"; "windowactivate"; window_id]) = Some e
  \/ (raises os (Run ["xdotool"; "windowactivate"; window_id]) = None
      /\ raises os (Run ["import"; "-window"; window_id; filename]) = Some e) ->
  exists w',
    _screenshot_linux os window_id filename w
    = (Ok (None, "Error in Linux screenshot: " +:+ exn_str e), w')
    /\ files w' = files w
    /\ log w'
       = (match raises os (Run ["xdotool"; "windowactivate"; window_id]) with
          | Some _ => [Run ["xdotool"; "windowactivate"; window_id]]
          | None => [Run ["import"; "-window"; window_id; filename];
                     Run ["xdotool"; "windowactivate"; window_id]]
          end ++ log w)%list.
Proof.
  intros He Hraise.
  unfold _screenshot_linux, run_tool, save, pass_called_process_error. unfold_m. simpl.
  destruct Hraise as [-> | [-> ->]]; simpl;
    destruct e; try discriminate He; simpl; eexists; repeat split.
Qed.

Lemma screenshot_linux_first_method_aborts_witness :
  exists w',
    _screenshot_linux (missing_tool "import" (machine Linux [] 200)) "4194311" "shot.png"
      empty_world
    = (Ok (None, "Error in Linux screenshot: [Errno 2] No such file or directory: 'import'"),
       w')
    /\ files w' = ∅
    /\ log w' = [Run ["import"; "-window"; "4194311"; "shot.png"];
                 Run ["xdotool"; "windowactivate"; "4194311"]].
Proof.
  apply (screenshot_linux_first_method_aborts (missing_tool "import" (machine Linux [] 200))
           "4194311" "shot.png" empty_world
           (FileNotFoundError "[Errno 2] No such file or directory: 'import'")).
  - reflexivity.
  - right. split; reflexivity.
Defined.

(** X15: the fallback chain of [_screenshot_linux].  When the tools
    leave no file behind, each of them returning or failing in a way
    its method passes over, the whole screen is captured and the file
    is written. *)
Theorem screenshot_linux_falls_back os window_id filename w :
  filename ∉ files w ->
  (forall argv, tool_writes os argv = false) ->
  passed_by_first (raises os (Run ["xdotool"; "windowactivate"; window_id])) = true ->
  passed_by_first (raises os (Run ["import"; "-window"; window_id; filename])) = true ->
  passed_by_later (raises os (Run ["scrot"; "-s"; filename])) = true ->
  passed_by_later (raises os (Run ["gnome-screenshot"; "-w"; "-f"; filename])) = true ->
  raises os (Screenshot None) = None ->
  raises os (Save filename) = None ->
  exists w',
    _screenshot_linux os window_id filename w
    = (Ok (Some filename, check_mark +:+ " Used full screen capture method"), w')
    /\ filename ∈ files w'.
Proof.
  intros Hout Htools Hx Hi Hs Hg Hshot Hsave.
  unfold _screenshot_linux, run_tool, save, pass_called_process_error, pass_tool_error.
  unfold_m. simpl.
  destruct (raises os (Run ["xdotool"; "windowactivate"; window_id])) as [[] |];
    try discriminate Hx;
    destruct (raises os (Run ["import"; "-window"; window_id; filename])) as [[] |];
    try discriminate Hi;
    destruct (raises os (Run ["scrot"; "-s"; filename])) as [[] |];
    try discriminate Hs;
    destruct (raises os (Run ["gnome-screenshot"; "-w"; "-f"; filename])) as [[] |];
    try discriminate Hg;
    repeat (progress (simpl; rewrite ?Htools, ?(bool_decide_eq_false_2 _ Hout),
                        ?Hshot, ?Hsave));
    (eexists; split; [reflexivity |]; simpl;
     apply elem_of_union_l, elem_of_singleton; reflexivity).
Qed.

Lemma screenshot_linux_falls_back_witness :
  exists w',
    _screenshot_linux
      (missing_tool "scrot" (missing_tool "gnome-screenshot" (machine Linux [] 200)))
      "4194311" "shot.png" empty_world
    = (Ok (Some "shot.png", check_mark +:+ " Used full screen capture method"), w')
    /\ "shot.png" ∈ files w'.
Proof.
  apply (screenshot_linux_falls_back
           (missing_tool "scrot" (missing_tool "gnome-screenshot" (machine Linux [] 200)))
           "4194311" "shot.png" empty_world); try reflexivity.
  intros Hin. apply (bool_decide_pack _) in Hin. vm_compute in Hin. exact Hin.
Defined.

Lemma bounds_capture_first os name before window after filename x y wd h w :
  forallb (fun q => negb (capturable name q)) before = true ->
  Text.contains (Text.lower (owner window)) name = true ->
  bounds window = Some (x, y, wd, h) ->
  (0 < wd)%Z -> (0 < h)%Z ->
  raises os (Screenshot (Some (x, y, wd, h))) = None ->
  raises os (Save filename) = None ->
  bounds_capture os name (before ++ window :: after) filename w
  = (Ok (Some (Some filename, check_mark +:+ " Used window bounds capture method")),
     with_files ({[filename]} ∪ files w)
       (logged (Save filename) (logged (Screenshot (Some (x, y, wd, h))) w))).
Proof.
  intros Hbefore Hown Hb Hwd Hh Hshot Hsave.
  induction before as [| q before IH]; simpl.
  - rewrite Hown, Hb.
    assert (Hpos : ((0 <? wd) && (0 <? h))%Z = true)
      by (apply andb_true_iff; split; apply Z.ltb_lt; assumption).
    rewrite Hpos. unfold save. unfold_m. rewrite Hshot. simpl. rewrite Hsave. reflexivity.
  - simpl in Hbefore. apply andb_true_iff in Hbefore as [Hq Hbefore].
    apply negb_true_iff in Hq. unfold capturable in Hq.
    destruct (Text.contains (Text.lower (owner q)) name); [| apply IH, Hbefore].
    destruct (bounds q) as [[[[x' y'] wd'] h'] |]; [| apply IH, Hbefore].
    simpl in Hq. rewrite Hq. apply IH, Hbefore.
Qed.

(** X16: method 1 of [_screenshot_macos] captures the bounds of the
    first window in the list whose owner has the application name in
    its own and whose width and height are positive; entries of other
    owners, without bounds or with an empty rectangle are skipped. *)
Theorem screenshot_macos_first_window os app name before window after filename x y wd h w :
  localizedName app = Some name ->
  window_list os = (before ++ window :: after)%list ->
  forallb (fun q => negb (capturable (Text.lower name) q)) before = true ->
  Text.contains (Text.lower (owner window)) (Text.lower name) = true ->
  bounds window = Some (x, y, wd, h) ->
  (0 < wd)%Z -> (0 < h)%Z ->
  raises os ActivateApp = None ->
  raises os WindowList = None ->
  raises os (Screenshot (Some (x, y, wd, h))) = None ->
  raises os (Save filename) = None ->
  exists w',
    _screenshot_macos os app filename w
    = (Ok (Some filename, check_mark +:+ " Used window bounds capture method"), w')
    /\ filename ∈ files w'
    /\ log w' = Save filename :: Screenshot (Some (x, y, wd, h)) :: WindowList
                :: ActivateApp :: log w.
Proof.
  intros Hname Hlist Hbefore Hown Hb Hwd Hh Hact Hwl Hshot Hsave.
  unfold _screenshot_macos. unfold try_except at 1. unfold bind at 1.
  unfold invoke at 1. rewrite Hact.
  unfold bind at 1. unfold try_except at 1. unfold bind at 1.
  unfold invoke at 1. rewrite Hwl, Hname, Hlist.
  rewrite (bounds_capture_first os (Text.lower name) before window after filename
             x y wd h _ Hbefore Hown Hb Hwd Hh Hshot Hsave).
  unfold ret. eexists. split; [reflexivity |]. split; [| reflexivity].
  simpl. apply elem_of_union_l, elem_of_singleton. reflexivity.
Qed.

Lemma screenshot_macos_first_window_witness :
  exists w',
    _screenshot_macos (with_window_list safari_windows (machine Darwin [] 200))
      {| localizedName := Some "Safari" |} "shot.png" empty_world
    = (Ok (Some "shot.png", check_mark +:+ " Used window bounds capture method"), w')
    /\ "shot.png" ∈ files w'
    /\ log w' = [Save "shot.png"; Screenshot (Some (10, 30, 1200, 800)%Z); WindowList;
                 ActivateApp].
Proof.
  apply (screenshot_macos_first_window
           (with_window_list safari_windows (machine Darwin [] 200))
           {| localizedName := Some "Safari" |} "Safari"
           [ {| owner := "Dock"; bounds := Some (0, 820, 1440, 80)%Z |};
             {| owner := "Safari"; bounds := None |};
             {| owner := "Safari"; bounds := Some (0, 0, 0, 0)%Z |} ]
           {| owner := "Safari"; bounds := Some (10, 30, 1200, 800)%Z |} []
           "shot.png" 10 30 1200 800 empty_world); try reflexivity.
Defined.

(** ** Monitoring, further *)

Section MonitorMore.
Variable cycle : ApplicationScreenshotter -> M (bool * string).

Lemma monitoring_loop_other sys i j :
  i <> j -> threads (_monitoring_loop cycle sys i) !! j = threads sys !! j.
Proof.
  intros Hne.
  destruct (monitoring_loop_shape cycle sys i) as [_ [-> | (old & new & _ & _ & ->)]].
  - reflexivity.
  - apply list_lookup_insert_ne, Hne.
Qed.

Lemma monitoring_loop_stopped sys i wk :
  running (self sys) = false ->
  threads sys !! i = Some wk ->
  exists wk',
    threads (_monitoring_loop cycle sys i) !! i = Some wk'
    /\ (steps_to_finish wk' <= pred (steps_to_finish wk))%nat.
Proof.
  intros Hrun Hi. pose proof (lookup_lt_Some _ _ _ Hi) as Hlt.
  unfold _monitoring_loop. rewrite Hi, Hrun.
  destruct wk as [| | [| rounds] |]; simpl.
  - rewrite list_lookup_insert_eq by exact Hlt. eexists. split; [reflexivity | simpl; lia].
  - destruct (cycle (self sys) (world sys)) as [[r | e] w]; simpl;
      rewrite list_lookup_insert_eq by exact Hlt; eexists; (split; [reflexivity | simpl; lia]).
  - rewrite list_lookup_insert_eq by exact Hlt. eexists. split; [reflexivity | simpl; lia].
  - rewrite list_lookup_insert_eq by exact Hlt. eexists. split; [reflexivity | simpl; lia].
  - eexists. split; [exact Hi | simpl; lia].
Qed.

Lemma run_threads_stopped schedule sys i wk :
  running (self sys) = false ->
  threads sys !! i = Some wk ->
  exists wk',
    threads (run_threads cycle schedule sys) !! i = Some wk'
    /\ (steps_to_finish wk' <= steps_to_finish wk - count_occ Nat.eq_dec schedule i)%nat.
Proof.
  revert sys wk. induction schedule as [| j more IH]; intros sys wk Hrun Hi; simpl.
  - exists wk. split; [exact Hi | lia].
  - unfold run_threads in *. simpl.
    assert (Hrun' : running (self (_monitoring_loop cycle sys j)) = false)
      by (rewrite monitoring_loop_self; exact Hrun).
    destruct (Nat.eq_dec j i) as [-> | Hne].
    + destruct (monitoring_loop_stopped sys i wk Hrun Hi) as (wk1 & Hi1 & Hle1).
      destruct (IH _ wk1 Hrun' Hi1) as (wk2 & Hi2 & Hle2).
      exists wk2. split; [exact Hi2 | lia].
    + rewrite <- (monitoring_loop_other sys j i Hne) in Hi.
      apply (IH _ wk Hrun' Hi).
Qed.

(** X17: cancellation is cooperative and bounded.  Once [running] is
    false, a thread of [_monitoring_loop] has finished after at most
    three of its own steps (one from the test of the [while], two from
    the [for] loop, three from a capture), whatever the other threads
    do in between. *)
Theorem stopped_worker_finishes schedule sys i wk :
  running (self sys) = false ->
  threads sys !! i = Some wk ->
  (steps_to_finish wk <= count_occ Nat.eq_dec schedule i)%nat ->
  threads (run_threads cycle schedule sys) !! i = Some Finished.
Proof.
  intros Hrun Hi Hcount.
  destruct (run_threads_stopped schedule sys i wk Hrun Hi) as (wk' & Hi' & Hle).
  rewrite Hi'. destruct wk'; simpl in Hle; try lia. reflexivity.
Qed.

Lemma monitoring_loop_idle sys i :
  running (self sys) = false ->
  forallb (fun wk => negb (is_capturing wk)) (threads sys) = true ->
  world (_monitoring_loop cycle sys i) = world sys
  /\ forallb (fun wk => negb (is_capturing wk)) (threads (_monitoring_loop cycle sys i)) = true.
Proof.
  intros Hrun Hnone. unfold _monitoring_loop. rewrite Hrun.
  assert (Hins : forall wk, is_capturing wk = false ->
             forallb (fun wk => negb (is_capturing wk)) (<[i := wk]> (threads sys)) = true).
  { intros wk Hwk. apply forallb_forall. intros x Hx.
    apply list_elem_of_In, list_elem_of_lookup in Hx as [j Hj].
    destruct (decide (i = j)) as [-> | Hne].
    - pose proof (lookup_lt_Some _ _ _ Hj) as Hlt. rewrite length_insert in Hlt.
      rewrite list_lookup_insert_eq in Hj by exact Hlt. injection Hj as <-.
      rewrite Hwk. reflexivity.
    - rewrite list_lookup_insert_ne in Hj by exact Hne.
      rewrite forallb_forall in Hnone. apply Hnone.
      apply list_elem_of_In, list_elem_of_lookup. eauto. }
  destruct (threads sys !! i) as [[| | [| rounds] |] |] eqn:Hi; simpl;
    try (split; [reflexivity | apply Hins; reflexivity]);
    try (split; [reflexivity | exact Hnone]).
  rewrite forallb_forall in Hnone.
  assert (Hin : In Capturing (threads sys))
    by (apply list_elem_of_In, list_elem_of_lookup; eauto).
  apply Hnone in Hin. discriminate.
Qed.

(** X18: once [running] is false and no thread is inside a capture, no
    schedule of the threads changes the world: no further screenshot is
    taken, sent or deleted. *)
Theorem stopped_bot_captures_nothing schedule sys :
  running (self sys) = false ->
  forallb (fun wk => negb (is_capturing wk)) (threads sys) = true ->
  world (run_threads cycle schedule sys) = world sys.
Proof.
  revert sys. induction schedule as [| i more IH]; intros sys Hrun Hnone; [reflexivity |].
  unfold run_threads in *. simpl.
  destruct (monitoring_loop_idle sys i Hrun Hnone) as [Hw Hnone'].
  rewrite IH; [exact Hw | rewrite monitoring_loop_self; exact Hrun | exact Hnone'].
Qed.

(** X19: [stop_monitoring] on a running bot returns with the thread it
    joins finished when that thread gets three steps while the join
    waits. *)
Theorem stop_monitoring_joins sys during_join t :
  running (self sys) = true ->
  monitor_thread (self sys) = Some t ->
  (3 <= count_occ Nat.eq_dec during_join t)%nat ->
  joined (snd (stop_monitoring cycle sys during_join)) = true
  /\ running (self (snd (stop_monitoring cycle sys during_join))) = false.
Proof.
  intros Hrun Ht Hcount. unfold stop_monitoring. rewrite Hrun, Ht. simpl.
  unfold joined. rewrite run_threads_self. simpl. rewrite Ht. split; [| reflexivity].
  destruct (threads sys !! t) as [wk |] eqn:Hwk.
  - destruct (run_threads_stopped during_join
                {| self := set_running false (self sys); world := world sys;
                   threads := threads sys |} t wk eq_refl Hwk) as (wk' & -> & Hle).
    destruct wk, wk'; simpl in Hle; try lia; reflexivity.
  - destruct (threads (run_threads cycle during_join _) !! t) as [wk' |] eqn:Hwk';
      [| reflexivity].
    destruct (is_active wk') eqn:Hact; [| reflexivity].
    destruct (run_threads_active cycle _ _ _ _ Hwk' Hact) as (w0 & Hw0 & _).
    simpl in Hw0. congruence.
Qed.

(** X20: an exception that leaves [take_single_screenshot] ends the
    thread and nothing resets [running]: the bot still counts as
    running, and [start_monitoring] refuses to start another thread
    until [stop_monitoring] is called. *)
Theorem crashed_worker_leaves_bot_running sys i e w' :
  threads sys !! i = Some Capturing ->
  cycle (self sys) (world sys) = (Raise e, w') ->
  let after := _monitoring_loop cycle sys i in
  threads after !! i = Some Finished
  /\ running (self after) = running (self sys)
  /\ (running (self sys) = true ->
      webhook_url (self sys) <> EmptyString ->
      app_name (self sys) <> EmptyString ->
      start_monitoring after = ((false, "Monitoring is already running!"), after)).
Proof.
  intros Hi Hcycle. cbv zeta.
  pose proof (lookup_lt_Some _ _ _ Hi) as Hlt.
  unfold _monitoring_loop. rewrite Hi, Hcycle. simpl.
  split; [apply list_lookup_insert_eq, Hlt |]. split; [reflexivity |].
  intros Hrun Hurl Happ. unfold start_monitoring. simpl.
  apply is_empty_false in Hurl, Happ. rewrite Hurl, Happ, Hrun. reflexivity.
Qed.

Lemma sleeping_rounds sys i n k :
  running (self sys) = true ->
  threads sys !! i = Some (Sleeping n) ->
  (k <= n)%nat ->
  threads (run_threads cycle (replicate k i) sys) !! i = Some (Sleeping (n - k))
  /\ world (run_threads cycle (replicate k i) sys) = world sys.
Proof.
  revert sys n. induction k as [| k IH]; intros sys n Hrun Hi Hk; simpl.
  - rewrite Nat.sub_0_r. split; [exact Hi | reflexivity].
  - unfold run_threads in *. simpl.
    destruct n as [| n]; [lia |].
    pose proof (lookup_lt_Some _ _ _ Hi) as Hlt.
    assert (Hstep : _monitoring_loop cycle sys i = set_thread i (Sleeping n) sys).
    { unfold _monitoring_loop. rewrite Hi, Hrun. reflexivity. }
    rewrite Hstep.
    destruct (IH (set_thread i (Sleeping n) sys) n) as [Hth Hw].
    + exact Hrun.
    + simpl. apply list_lookup_insert_eq, Hlt.
    + lia.
    + split; [exact Hth | exact Hw].
Qed.

Lemma run_threads_app l1 l2 sys :
  run_threads cycle (l1 ++ l2) sys = run_threads cycle l2 (run_threads cycle l1 sys).
Proof. apply fold_left_app. Qed.

(** X21: the pace of [_monitoring_loop].  After a capture that
    returns, a running thread is back at the next capture after exactly
    [interval] rounds of its [for] loop and two tests, and the world is
    as the capture left it; with an interval of zero or less there is
    no round at all. *)
Theorem one_capture_per_interval sys i r w' :
  running (self sys) = true ->
  threads sys !! i = Some Capturing ->
  cycle (self sys) (world sys) = (Ok r, w') ->
  let n := Z.to_nat (interval (self sys)) in
  (forall k, (1 <= k <= n + 2)%nat ->
     exists wk,
       threads (run_threads cycle (replicate k i) sys) !! i = Some wk
       /\ is_capturing wk = false)
  /\ threads (run_threads cycle (replicate (n + 3) i) sys) !! i = Some Capturing
  /\ world (run_threads cycle (replicate (n + 3) i) sys) = w'.
Proof.
  intros Hrun Hi Hcycle n.
  pose proof (lookup_lt_Some _ _ _ Hi) as Hlt.
  set (sys1 := {| self := self sys; world := w';
                  threads := <[i := Sleeping n]> (threads sys) |}).
  assert (Hstep : _monitoring_loop cycle sys i = sys1).
  { unfold _monitoring_loop. rewrite Hi, Hcycle. reflexivity. }
  assert (Hi1 : threads sys1 !! i = Some (Sleeping n))
    by (apply list_lookup_insert_eq, Hlt).
  assert (Hfirst : forall k, run_threads cycle (replicate (S k) i) sys
                             = run_threads cycle (replicate k i) sys1).
  { intros k. unfold run_threads. simpl. rewrite Hstep. reflexivity. }
  assert (Hsleep : forall k, (k <= n)%nat ->
             threads (run_threads cycle (replicate k i) sys1) !! i = Some (Sleeping (n - k))
             /\ world (run_threads cycle (replicate k i) sys1) = w').
  { intros k Hk. apply (sleeping_rounds sys1 i n k Hrun Hi1 Hk). }
  set (sys2 := run_threads cycle (replicate n i) sys1).
  assert (Hi2 : threads sys2 !! i = Some (Sleeping 0) /\ world sys2 = w').
  { destruct (Hsleep n (le_n n)) as [Hth Hw]. rewrite Nat.sub_diag in Hth. split; assumption. }
  destruct Hi2 as [Hi2 Hw2].
  assert (Hrun2 : running (self sys2) = true)
    by (unfold sys2; rewrite run_threads_self; exact Hrun).
  assert (Hlt2 : (i < length (threads sys2))%nat) by (apply (lookup_lt_Some _ _ _ Hi2)).
  assert (Hwake : run_threads cycle (replicate (S n) i) sys1 = set_thread i Testing sys2).
  { rewrite replicate_S_end, run_threads_app. fold sys2.
    unfold run_threads. simpl. unfold _monitoring_loop. rewrite Hi2. reflexivity. }
  assert (Hnext : run_threads cycle (replicate (S (S n)) i) sys1
                  = set_thread i Capturing (set_thread i Testing sys2)).
  { rewrite replicate_S_end, run_threads_app, Hwake.
    unfold run_threads. simpl. unfold _monitoring_loop. simpl.
    rewrite list_lookup_insert_eq by exact Hlt2. rewrite Hrun2. reflexivity. }
  split; [| split].
  - intros k Hk. destruct k as [| k]; [lia |]. rewrite Hfirst.
    destruct (decide (k <= n)%nat) as [Hle | Hgt].
    + destruct (Hsleep k Hle) as [Hth _]. eexists. split; [exact Hth | reflexivity].
    + assert (k = S n) as -> by lia. rewrite Hwake. simpl.
      rewrite list_lookup_insert_eq by exact Hlt2. eexists. split; reflexivity.
  - replace (n + 3)%nat with (S (S (S n))) by lia. rewrite Hfirst, Hnext. simpl.
    apply list_lookup_insert_eq. rewrite length_insert. exact Hlt2.
  - replace (n + 3)%nat with (S (S (S n))) by lia. rewrite Hfirst, Hnext. simpl. exact Hw2.
Qed.

End MonitorMore.

Lemma stopped_worker_finishes_witness :
  threads (snd (stop_monitoring linux_cycle capturing_system [])) = [Capturing]
  /\ threads (run_threads linux_cycle [0; 0; 0]%nat
                (snd (stop_monitoring linux_cycle capturing_system []))) !! 0%nat
     = Some Finished.
Proof.
  split; [reflexivity |].
  apply (stopped_worker_finishes linux_cycle [0; 0; 0]%nat
           (snd (stop_monitoring linux_cycle capturing_system [])) 0%nat Capturing);
    [reflexivity | reflexivity | simpl; lia].
Defined.

Lemma stopped_bot_captures_nothing_witness :
  threads sleeping_stopped_system = [Sleeping 60]
  /\ world (run_threads linux_cycle [0; 0; 0; 0]%nat sleeping_stopped_system)
     = world sleeping_stopped_system.
Proof.
  split; [reflexivity |].
  apply (stopped_bot_captures_nothing linux_cycle [0; 0; 0; 0]%nat sleeping_stopped_system);
    reflexivity.
Defined.

Lemma stop_monitoring_joins_witness :
  joined (snd (stop_monitoring linux_cycle capturing_system [0; 0; 0]%nat)) = true
  /\ running (self (snd (stop_monitoring linux_cycle capturing_system [0; 0; 0]%nat))) = false.
Proof.
  apply (stop_monitoring_joins linux_cycle capturing_system [0; 0; 0]%nat 0%nat);
    [reflexivity | reflexivity | simpl; lia].
Defined.

Lemma crashed_worker_leaves_bot_running_witness :
  let sys := _monitoring_loop refused_cycle
               (snd (start_monitoring (boot notepad empty_world))) 0 in
  let after := _monitoring_loop refused_cycle sys 0 in
  threads after = [Finished]
  /\ running (self after) = true
  /\ start_monitoring after = ((false, "Monitoring is already running!"), after).
Proof.
  cbv zeta.
  destruct (crashed_worker_leaves_bot_running refused_cycle
              (_monitoring_loop refused_cycle
                 (snd (start_monitoring (boot notepad empty_world))) 0)
              0%nat (OSError "[Errno 13] Permission denied")
              (logged (Makedirs "screenshots") (logged GetAllWindows empty_world)))
    as (_ & _ & Hstart).
  - reflexivity.
  - reflexivity.
  - split; [reflexivity |]. split; [reflexivity |].
    apply Hstart; [reflexivity | discriminate | discriminate].
Defined.

Lemma one_capture_per_interval_witness :
  threads (run_threads linux_cycle (replicate 63 0%nat) capturing_system) !! 0%nat
  = Some Capturing.
Proof.
  edestruct (one_capture_per_interval linux_cycle capturing_system 0%nat)
    as (_ & Hnext & _).
  - reflexivity.
  - reflexivity.
  - reflexivity.
  - exact Hnext.
Defined.

(** ** The message template, further *)

Lemma append_empty_r s : s +:+ EmptyString = s.
Proof.
  induction s as [| c s IH]; [reflexivity |].
  change (String c (s +:+ EmptyString) = String c s). f_equal. exact IH.
Qed.

Lemma snoc_append acc c r : Format.snoc acc c +:+ r = acc +:+ String c r.
Proof.
  unfold Format.snoc. induction acc as [| a acc IH]; [reflexivity |].
  change (String a ((acc +:+ String c EmptyString) +:+ r) = String a (acc +:+ String c r)).
  f_equal. exact IH.
Qed.

Lemma scan_literal s acc :
  brace_free s = true ->
  Format.scan s (Format.SLit acc) = (Format.lit_segment (acc +:+ s), None).
Proof.
  revert acc. induction s as [| c r IH]; intros acc Hs; simpl.
  - rewrite append_empty_r. reflexivity.
  - unfold brace_free in Hs. simpl in Hs.
    apply andb_true_iff in Hs as [Ho Hc].
    apply negb_true_iff, orb_false_iff in Ho as [Ho Ho'].
    apply negb_true_iff, orb_false_iff in Hc as [Hc Hc'].
    rewrite Ho, Hc. rewrite IH.
    + rewrite snoc_append. reflexivity.
    + unfold brace_free. rewrite Ho', Hc'. reflexivity.
Qed.

Section FormatMore.
Context {lib : Format.StrLib}.

(** X22: a template with no brace is the message: [format_message]
    returns it unchanged. *)
Theorem format_message_plain_text self now :
  brace_free (custom_message self) = true ->
  format_message self now = custom_message self.
Proof.
  intros Hs. unfold format_message, Format.format, Format.parse.
  rewrite (scan_literal _ EmptyString Hs). simpl.
  destruct (custom_message self); simpl; [reflexivity |].
  rewrite append_empty_r. reflexivity.
Qed.

Lemma render_field_plain self now name :
  name ∈ recognized ->
  exists v,
    variables self now !! name = Some v
    /\ Format.render_field (variables self now) name None EmptyString = Ok v.
Proof.
  intros Hk. unfold recognized in Hk.
  repeat (apply elem_of_cons in Hk as [-> | Hk]; [eexists; split; reflexivity |]).
  inversion Hk.
Qed.

Lemma render_plain self now segs :
  forallb plain_segment segs = true ->
  Format.render (variables self now) segs = Ok (substitute_all (variables self now) segs).
Proof.
  induction segs as [| seg segs IH]; simpl; [reflexivity |].
  intros Hall. apply andb_true_iff in Hall as [Hseg Hall]. rewrite (IH Hall).
  destruct seg as [text | name conv spec]; simpl; [reflexivity |].
  simpl in Hseg. apply andb_true_iff in Hseg as [Hseg Hspec].
  apply andb_true_iff in Hseg as [Hname Hconv].
  apply bool_decide_eq_true in Hname. apply is_empty_true in Hspec. subst spec.
  destruct conv; [discriminate |].
  destruct (render_field_plain self now name Hname) as (v & -> & ->). reflexivity.
Qed.

(** X23: a template that reads as literal text, doubled braces and
    plain fields of the recognized placeholders formats without error:
    the message is the text with each field replaced by its value,
    whatever the library does with conversions and format specs. *)
Theorem format_message_substitutes self now segs :
  Format.parse (custom_message self) = (segs, None) ->
  forallb plain_segment segs = true ->
  format_message self now = substitute_all (variables self now) segs.
Proof.
  intros Hparse Hall. unfold format_message, Format.format.
  rewrite Hparse, (render_plain self now segs Hall). reflexivity.
Qed.

End FormatMore.

Lemma format_message_plain_text_witness :
  format_message (lib := Format.no_lib) (with_message "Daily status" notepad)
    (fun _ => monday_afternoon)
  = "Daily status".
Proof.
  apply (format_message_plain_text (lib := Format.no_lib)
           (with_message "Daily status" notepad) (fun _ => monday_afternoon)).
  reflexivity.
Defined.

Lemma format_message_substitutes_witness :
  format_message (lib := Format.no_lib)
    (with_message "{{{app_name}}} on {day}, {date}" notepad) (fun _ => monday_afternoon)
  = "{notepad} on Monday, 2024-01-15".
Proof.
  apply (format_message_substitutes (lib := Format.no_lib)
           (with_message "{{{app_name}}} on {day}, {date}" notepad)
           (fun _ => monday_afternoon)
           [Format.Lit "{"; Format.Fld "app_name" None EmptyString; Format.Lit "} on ";
            Format.Fld "day" None EmptyString; Format.Lit ", ";
            Format.Fld "date" None EmptyString]);
    vm_compute; reflexivity.
Defined.

(** ** The configuration file *)

Lemma read_own_settings self other disk :
  read_settings other disk (Object (settings self))
  = match read_error disk with
    | Some e => Raise e
    | None =>
        Ok (Some {| webhook_url := webhook_url self; app_name := app_name self;
                    interval := interval self;
                    delete_after_send := delete_after_send self;
                    custom_message := custom_message self;
                    running := running other; monitor_thread := monitor_thread other |})
    end.
Proof. unfold read_settings. destruct (read_error disk); reflexivity. Qed.

(** X24: what [save_config] writes, [load_config] reads back.  On a disk
    that can be written and read, loading after saving answers [True]
    and gives the loading bot the five settings of the saving bot; its
    [running] flag and its thread are its own. *)
Theorem save_then_load self other disk :
  write_error disk = None ->
  read_error disk = None ->
  exists loaded,
    load_config other (save_config self disk) = Some (true, loaded, save_config self disk)
    /\ webhook_url loaded = webhook_url self
    /\ app_name loaded = app_name self
    /\ interval loaded = interval self
    /\ delete_after_send loaded = delete_after_send self
    /\ custom_message loaded = custom_message self
    /\ running loaded = running other
    /\ monitor_thread loaded = monitor_thread other.
Proof.
  intros Hw Hr. unfold save_config, write_settings, load_config. rewrite Hw.
  cbn [cfg]. rewrite read_own_settings. cbn [read_error]. rewrite Hr.
  eexists. split; [reflexivity |]. repeat split.
Qed.

Lemma save_then_load_witness :
  exists loaded,
    load_config init (save_config notepad blank_disk)
    = Some (true, loaded, save_config notepad blank_disk)
    /\ webhook_url loaded = webhook_url notepad
    /\ app_name loaded = "notepad"
    /\ interval loaded = 60%Z.
Proof.
  destruct (save_then_load notepad init blank_disk eq_refl eq_refl)
    as (loaded & Hload & Hurl & Happ & Hint & _).
  exists loaded. repeat split; assumption.
Defined.



(** ** The list of applications *)

Lemma worth_listing_some app name :
  worth_listing app = Some name <-> app = Some name /\ (1 < String.length name)%nat.
Proof.
  unfold worth_listing. destruct app as [s |]; [| split; [discriminate | intros [H _]; discriminate]].
  destruct s as [| c s]; simpl; [split; [discriminate | intros [H Hl]; injection H as <-; simpl in Hl; lia] |].
  destruct (1 <? S (String.length s))%nat eqn:Hlen.
  - apply Nat.ltb_lt in Hlen. split.
    + intros H. injection H as <-. split; [reflexivity | exact Hlen].
    + intros [H _]. exact H.
  - apply Nat.ltb_ge in Hlen. split; [discriminate |].
    intros [H Hl]. injection H as <-. simpl in Hl. lia.
Qed.

Lemma NoDup_worth_listing (l : list (option string)) :
  NoDup l -> NoDup (omap worth_listing l).
Proof.
  induction 1 as [| app l Hnot _ IH]; simpl; [constructor |].
  destruct (worth_listing app) as [name |] eqn:Hw; [| exact IH].
  constructor; [| exact IH].
  intros Hin. apply list_elem_of_omap in Hin as (app' & Hin' & Hw').
  apply worth_listing_some in Hw as [-> _]. apply worth_listing_some in Hw' as [-> _].
  contradiction.
Qed.

Lemma list_running_applications_answer os w apps w' :
  list_running_applications os w = (Ok apps, w') ->
  exists collected,
    collect_applications os w = (Ok collected, w')
    /\ apps = sorted (omap worth_listing (elements collected)).
Proof.
  unfold list_running_applications, bind.
  destruct (collect_applications os w) as [[collected | e] w1]; [| discriminate].
  unfold ret. intros Heq. injection Heq as <- <-. eauto.
Qed.

(** X26: the list [list_running_applications] returns is sorted in the
    order of the code points, holds no name twice, and holds no name
    of fewer than two characters. *)
Theorem list_running_applications_sorted os w apps w' :
  list_running_applications os w = (Ok apps, w') ->
  StronglySorted String.le apps
  /\ NoDup apps
  /\ Forall (fun name => (1 < String.length name)%nat) apps.
Proof.
  intros Hrun. apply list_running_applications_answer in Hrun as (collected & _ & ->).
  unfold sorted. split; [apply StronglySorted_merge_sort; apply _ |]. split.
  - rewrite merge_sort_Permutation. apply NoDup_worth_listing, NoDup_elements.
  - rewrite merge_sort_Permutation. apply Forall_forall. intros name Hin.
    apply list_elem_of_omap in Hin as (app & _ & Hw).
    apply worth_listing_some in Hw as [_ Hlen]. exact Hlen.
Qed.

Lemma list_running_applications_sorted_witness :
  fst (list_running_applications desktop empty_world)
  = Ok ["Notepad helper"; "System"; "Untitled - Notepad"; "notepad"]
  /\ StronglySorted String.le ["Notepad helper"; "System"; "Untitled - Notepad"; "notepad"].
Proof.
  split; [vm_compute; reflexivity |].
  apply (list_running_applications_sorted desktop empty_world
           ["Notepad helper"; "System"; "Untitled - Notepad"; "notepad"]
           (snd (list_running_applications desktop empty_world))).
  vm_compute. reflexivity.
Defined.

Lemma in_sorted_listing (collected : gset (option string)) name :
  name ∈ sorted (omap worth_listing (elements collected))
  <-> Some name ∈ collected /\ (1 < String.length name)%nat.
Proof.
  unfold sorted. rewrite merge_sort_Permutation, list_elem_of_omap. split.
  - intros (app & Hin & Hw). apply worth_listing_some in Hw as [-> Hlen].
    apply elem_of_elements in Hin. split; assumption.
  - intros [Hin Hlen]. exists (Some name). split; [apply elem_of_elements, Hin |].
    apply worth_listing_some. split; [reflexivity | exact Hlen].
Qed.

Lemma in_some_names (names : list string) name :
  Some name ∈ (list_to_set (Some <$> names) : gset (option string)) <-> name ∈ names.
Proof.
  rewrite elem_of_list_to_set, list_elem_of_fmap. split.
  - intros (x & Heq & Hin). injection Heq as ->. exact Hin.
  - intros Hin. exists name. split; [reflexivity | exact Hin].
Qed.

Lemma collect_applications_windows os w collected w' :
  platform os = Win32 ->
  collect_applications os w = (Ok collected, w') ->
  collected
  = list_to_set (Some <$> match raises os GetAllWindows with
                          | None => omap listed_title (all_windows os)
                          | Some _ => []
                          end)
    ∪ list_to_set (Some <$> omap listed_process (processes os)).
Proof.
  intros Hp. unfold collect_applications. rewrite Hp. unfold_m.
  destruct (raises os GetAllWindows); simpl;
    destruct (raises os ProcessIter); simpl; intros Heq; try discriminate Heq;
    injection Heq as <- _; reflexivity.
Qed.

(** X27: what is listed on Windows.  A name of two characters or more
    is in the list exactly when it is the stripped title of a window
    (should the enumeration of the windows not raise), or the name of a
    process, without its final [.exe] if it has one.  Windows are
    listed whether visible or not. *)
Theorem list_running_applications_windows os w apps w' name :
  platform os = Win32 ->
  list_running_applications os w = (Ok apps, w') ->
  (name ∈ apps <->
   (1 < String.length name)%nat
   /\ ((raises os GetAllWindows = None
        /\ exists window, window ∈ all_windows os /\ Text.strip (title window) = name)
       \/ exists proc full,
            proc ∈ processes os /\ proc_name proc = Some full
            /\ name = if endswith full ".exe" then drop_last 4 full else full)).
Proof.
  intros Hp Hrun. apply list_running_applications_answer in Hrun as (collected & Hc & ->).
  rewrite (collect_applications_windows os w collected w' Hp Hc).
  rewrite in_sorted_listing, elem_of_union, !in_some_names, !list_elem_of_omap.
  assert (Hnot : (1 < String.length name)%nat -> Text.is_empty name = false)
    by (destruct name; simpl; [lia | reflexivity]).
  split.
  - intros [[Htitle | (proc & Hin & Hl)] Hlen]; (split; [exact Hlen |]).
    + left. destruct (raises os GetAllWindows); [inversion Htitle | split; [reflexivity |]].
      apply list_elem_of_omap in Htitle as (window & Hin & Hl).
      exists window. split; [exact Hin |]. unfold listed_title in Hl. cbv zeta in Hl.
      destruct (Text.is_empty (Text.strip (title window))); [discriminate |].
      injection Hl as Hl. exact Hl.
    + right. unfold listed_process in Hl.
      destruct (proc_name proc) as [full |] eqn:Hfull; [| discriminate].
      exists proc, full. split; [exact Hin |]. split; [exact Hfull |].
      destruct (Text.is_empty full); [discriminate |].
      destruct (endswith full ".exe"); injection Hl as <-; reflexivity.
  - intros [Hlen [[Hraise (window & Hin & Hs)] | (proc & full & Hin & Hfull & Hname)]];
      (split; [| exact Hlen]).
    + left. rewrite Hraise. apply list_elem_of_omap. exists window. split; [exact Hin |].
      unfold listed_title. rewrite Hs, (Hnot Hlen). reflexivity.
    + right. exists proc. split; [exact Hin |]. unfold listed_process. rewrite Hfull.
      destruct (Text.is_empty full) eqn:He.
      * apply is_empty_true in He. subst full. simpl in Hname. subst name. simpl in Hlen. lia.
      * rewrite Hname. destruct (endswith full ".exe"); reflexivity.
Qed.

Lemma list_running_applications_windows_witness :
  "notepad" ∈ ["Notepad helper"; "System"; "Untitled - Notepad"; "notepad"].
Proof.
  apply (list_running_applications_windows desktop empty_world
           ["Notepad helper"; "System"; "Untitled - Notepad"; "notepad"]
           (snd (list_running_applications desktop empty_world)) "notepad").
  - reflexivity.
  - vm_compute. reflexivity.
  - split; [simpl; lia |]. right.
    exists {| proc_name := Some "notepad.exe"; pid := 7 |}, "notepad.exe".
    split; [apply list_elem_of_here |]. split; reflexivity.
Defined.

(** ** The front ends *)

Lemma length_append (a b : string) :
  String.length (a +:+ b) = (String.length a + String.length b)%nat.
Proof.
  induction a as [| c a IH]; [reflexivity |].
  change (S (String.length (a +:+ b)) = S (String.length a + String.length b)).
  f_equal. exact IH.
Qed.

Lemma length_take_le n s : (String.length (Text.take n s) <= n)%nat.
Proof.
  revert s. induction n as [| n IH]; intros [| c s]; simpl; try lia.
  specialize (IH s). lia.
Qed.

Lemma with_message_restores template s :
  with_message (custom_message s) (with_message template s) = s.
Proof. destruct s; reflexivity. Qed.

(** X28: [update_message_preview] leaves the bot as it was: the template
    is back in place after the preview.  The label shows at most 80
    characters of message after "Preview: ", and the whole message when
    it is not empty and has no more than 80 characters. *)
Theorem update_message_preview_restores {lib : Format.StrLib} self message_var now :
  let preview := format_message (with_message message_var self) now in
  fst (update_message_preview self message_var now) = self
  /\ (String.length (snd (update_message_preview self message_var now)) <= 89)%nat
  /\ (Text.is_empty preview = false ->
      (String.length preview <= 80)%nat ->
      snd (update_message_preview self message_var now) = "Preview: " +:+ preview).
Proof.
  cbv zeta. unfold update_message_preview. cbv zeta. cbn [fst snd].
  split; [apply with_message_restores |].
  set (preview := format_message (with_message message_var self) now).
  destruct (Text.is_empty preview) eqn:Hempty; cbn [negb andb].
  - rewrite Hempty. split; [simpl; lia | discriminate].
  - destruct (80 <? String.length preview)%nat eqn:Hlong.
    + apply Nat.ltb_lt in Hlong.
      assert (Hshown : Text.is_empty (Text.take 77 preview +:+ "...") = false).
      { destruct preview as [| c p]; [discriminate | reflexivity]. }
      rewrite Hshown. split.
      * rewrite !length_append. pose proof (length_take_le 77 preview) as Htake.
        change (String.length "Preview: ") with 9%nat.
        change (String.length "...") with 3%nat. lia.
      * intros _ Hle. lia.
    + apply Nat.ltb_ge in Hlong. rewrite Hempty. split.
      * rewrite length_append. change (String.length "Preview: ") with 9%nat. lia.
      * intros _ _. reflexivity.
Qed.

Lemma start_monitoring_settings sys :
  interval (self (snd (start_monitoring sys))) = interval (self sys)
  /\ app_name (self (snd (start_monitoring sys))) = app_name (self sys).
Proof.
  unfold start_monitoring. destruct (_ || _); [split; reflexivity |].
  destruct (running (self sys)); split; reflexivity.
Qed.

Lemma stop_monitoring_settings cycle sys during_join :
  interval (self (snd (stop_monitoring cycle sys during_join))) = interval (self sys)
  /\ app_name (self (snd (stop_monitoring cycle sys during_join))) = app_name (self sys)
  /\ running (self (snd (stop_monitoring cycle sys during_join))) = false.
Proof.
  unfold stop_monitoring. destruct (running (self sys)) eqn:Hrun; simpl;
    [| repeat split; exact Hrun].
  destruct (monitor_thread (self sys)); rewrite ?run_threads_self; repeat split.
Qed.

Section ConsoleTheory.
Context {lib : Format.StrLib}.
Variable int : string -> option Z.
Variable os : OS.

Lemma leave_well_configured during_join c :
  well_configured (self (system c)) ->
  well_configured (self (system (leave os during_join c))).
Proof.
  intros [Hi Ha]. unfold leave, well_configured. cbn [system].
  destruct (running (self (system c))); [| split; assumption].
  destruct (stop_monitoring_settings (take_single_screenshot os) (system c) during_join)
    as (-> & -> & _).
  split; assumption.
Qed.

Lemma choose_well_configured choice answer during_join c :
  well_configured (self (system c)) ->
  well_configured (self (system (choose int os choice answer during_join c))).
Proof.
  intros Hc. pose proof Hc as [Hi Ha]. unfold choose. cbv zeta.
  repeat match goal with
         | |- context [if String.eqb ?a ?b then _ else _] => destruct (String.eqb a b)
         end;
    try exact Hc.
  - destruct (Text.is_empty _); [exact Hc | split; assumption].
  - destruct (Text.is_empty _); [exact Hc |].
    split; [exact Hi | apply lower_idem].
  - destruct (Text.is_empty _); split; assumption.
  - destruct (int _) as [seconds |]; [| exact Hc].
    destruct (0 <? seconds)%Z eqn:Hpos; [| exact Hc].
    apply Z.ltb_lt in Hpos. split; [exact Hpos | exact Ha].
  - unfold well_configured. cbn [with_system system].
    destruct (start_monitoring_settings (system c)) as [-> ->]. exact Hc.
  - unfold well_configured. cbn [with_system system].
    destruct (stop_monitoring_settings (take_single_screenshot os) (system c) during_join)
      as (-> & -> & _).
    exact Hc.
  - apply leave_well_configured, Hc.
Qed.

Lemma console_step_well_configured c e :
  well_configured (self (system c)) ->
  well_configured (self (system (console_step int os c e))).
Proof.
  intros Hc. unfold console_step. destruct (exited c); [exact Hc |].
  destruct e as [choice answer during_join | during_join | i].
  - apply choose_well_configured, Hc.
  - apply leave_well_configured, Hc.
  - unfold well_configured. cbn [with_system system].
    rewrite monitoring_loop_self. exact Hc.
Qed.

(** X29: whatever is entered at the menu and however the threads are
    scheduled, the bot of [console_menu] has a positive interval and an
    application name in lower case, at all times. *)
Theorem console_menu_well_configured w files events :
  well_configured (self (system (console_menu int os w files events))).
Proof.
  unfold console_menu.
  assert (Hinit : well_configured
                    (self (system {| system := {| self := init; world := w; threads := [] |};
                                     disk := files; exited := false |})))
    by (split; [reflexivity | reflexivity]).
  revert Hinit. generalize {| system := {| self := init; world := w; threads := [] |};
                              disk := files; exited := false |}.
  induction events as [| e events IH]; intros c Hc; simpl; [exact Hc |].
  apply IH, console_step_well_configured, Hc.
Qed.




End ConsoleTheory.

